(** * Emby provisioning and directory sync (app/services/media/emby.py)

    A shallow embedding of the Emby media client of the invitation service:
    the REST wrapper [EmbyClient], the helpers [mark_invite_used],
    [folder_name_to_id] and [set_specific_folders], and the provisioning
    workflow [join], followed by the properties of the specification that
    concern them.

    Modelling conventions.
    - Python values that travel through JSON bodies, form fields and
      database columns are terms of [pyval].  A [dict] is an association
      list in insertion order with unique keys, as CPython keeps it.
    - Strings are [string]; one [ascii] stands for one character.  The two
      literals of the source that hold non-ASCII characters are kept as
      their UTF-8 bytes and are only ever returned or passed on.
    - Remote identifiers and display names are strings (spec, section 3):
      a body that carries another kind of value where the code needs an
      identifier is treated as malformed and raises [TypeError].
    - Everything outside the process (the media server, the persistence
      engine, the notification sink, the invitation rule engine, the
      clock) is a member of the class [Environment]; the theorems hold
      for every instance.
    - Exceptions are values of [exn]; a computation returns [Ok] or
      [Raise], and the state reached before a [Raise] is kept.
    - [logging.info] calls are not modelled; warnings and errors are
      recorded in the world's log. *)

From stdpp Require Import base option list strings gmap sets.
From Stdlib Require Import ZArith Ascii String Lia.

Open Scope string_scope.
Open Scope list_scope.
Open Scope Z_scope.

Set Warnings "-register-all".

(** ** Exceptions and results *)

Inductive exn : Type :=
| ConnectionError
| HTTPError (status : Z)
| JSONDecodeError
| KeyError (key : string)
| TypeError
| AttributeError
| ValueError
| OverflowError
| DatabaseError
| NotifyError.

Inductive result (A : Type) : Type :=
| Ok (a : A)
| Raise (e : exn).
Arguments Ok {A} a.
Arguments Raise {A} e.

#[global] Instance result_ret : MRet result := fun A a => Ok a.
#[global] Instance result_bind : MBind result := fun A B f m =>
  match m with
  | Ok a => f a
  | Raise e => Raise e
  end.

Definition is_ok {A} (r : result A) : bool :=
  match r with Ok _ => true | Raise _ => false end.

(** ** Python values *)

Inductive pyval : Type :=
| PNone
| PBool (b : bool)
| PInt (n : Z)
| PStr (s : string)
| PList (xs : list pyval)
| PDict (items : list (string * pyval)).

(** *** Dictionaries: insertion-ordered association lists *)

Section PyDict.
Context {V : Type}.

Fixpoint dict_get (k : string) (d : list (string * V)) : option V :=
  match d with
  | [] => None
  | (k', v) :: d' => if decide (k = k') then Some v else dict_get k d'
  end.

Definition dict_mem (k : string) (d : list (string * V)) : bool :=
  match dict_get k d with Some _ => true | None => false end.

(** [d[k] = v]: an existing key keeps its position, a new key goes last. *)
Fixpoint dict_set (k : string) (v : V) (d : list (string * V)) : list (string * V) :=
  match d with
  | [] => [(k, v)]
  | (k', v') :: d' =>
      if decide (k = k') then (k, v) :: d' else (k', v') :: dict_set k v d'
  end.

(** [d.update(patch)] *)
Definition dict_update (d patch : list (string * V)) : list (string * V) :=
  foldl (fun acc kv => dict_set kv.1 kv.2 acc) d patch.

Definition dict_keys (d : list (string * V)) : list string := fst <$> d.
Definition dict_values (d : list (string * V)) : list V := snd <$> d.

End PyDict.

(** *** Truthiness, [in], subscription, iteration *)

Definition py_truthy (v : pyval) : bool :=
  match v with
  | PNone => false
  | PBool b => b
  | PInt n => negb (n =? 0)
  | PStr s => negb (bool_decide (s = ""))
  | PList xs => match xs with [] => false | _ => true end
  | PDict d => match d with [] => false | _ => true end
  end.

(** [v == s] for a string literal [s]: only a string can equal a string. *)
Definition py_eq_str (v : pyval) (s : string) : bool :=
  match v with
  | PStr s' => bool_decide (s' = s)
  | _ => false
  end.

Fixpoint is_substring (k s : string) : bool :=
  String.prefix k s ||
  match s with
  | EmptyString => false
  | String _ s' => is_substring k s'
  end.

(** [key in container] for a string key. *)
Definition py_contains (key : string) (container : pyval) : result bool :=
  match container with
  | PDict d => Ok (dict_mem key d)
  | PList xs => Ok (existsb (fun x => py_eq_str x key) xs)
  | PStr s => Ok (is_substring key s)
  | _ => Raise TypeError
  end.

(** [container[key]] for a string key. *)
Definition py_getitem (container : pyval) (key : string) : result pyval :=
  match container with
  | PDict d =>
      match dict_get key d with
      | Some v => Ok v
      | None => Raise (KeyError key)
      end
  | _ => Raise TypeError
  end.

(** [container[key] = v] for a string key. *)
Definition py_setitem (container : pyval) (key : string) (v : pyval) : result pyval :=
  match container with
  | PDict d => Ok (PDict (dict_set key v d))
  | _ => Raise TypeError
  end.

(** [for x in v] *)
Definition py_iter (v : pyval) : result (list pyval) :=
  match v with
  | PList xs => Ok xs
  | PDict d => Ok (PStr <$> dict_keys d)
  | PStr s => Ok ((fun c => PStr (String c EmptyString)) <$> list_ascii_of_string s)
  | _ => Raise TypeError
  end.

(** A value used as an identifier or a display name. *)
Definition as_str (v : pyval) : result string :=
  match v with
  | PStr s => Ok s
  | _ => Raise TypeError
  end.

Definition str_field (o : pyval) (key : string) : result string :=
  v ← py_getitem o key; as_str v.

(** *** [int(...)] *)

Definition is_space (c : ascii) : bool :=
  let n := nat_of_ascii c in
  ((9 <=? n) && (n <=? 13) || (28 <=? n) && (n <=? 32))%nat.

Definition is_digit (c : ascii) : bool :=
  let n := nat_of_ascii c in ((48 <=? n) && (n <=? 57))%nat.

Definition digit_value (c : ascii) : Z := Z.of_nat (nat_of_ascii c) - 48.

Fixpoint lstrip (l : list ascii) : list ascii :=
  match l with
  | c :: l' => if is_space c then lstrip l' else l
  | [] => []
  end.

Definition strip (l : list ascii) : list ascii := rev (lstrip (rev (lstrip l))).

(** Decimal digits, single underscores allowed between two digits.
    [sep] tells that the previous character was not a digit. *)
Fixpoint digits_value (acc : Z) (sep : bool) (l : list ascii) : option Z :=
  match l with
  | [] => if sep then None else Some acc
  | c :: l' =>
      if is_digit c then digits_value (acc * 10 + digit_value c) false l'
      else if bool_decide (c = "_"%char) && negb sep then digits_value acc true l'
      else None
  end.

Definition int_of_string (s : string) : option Z :=
  match strip (list_ascii_of_string s) with
  | "-"%char :: l => Z.opp <$> digits_value 0 true l
  | "+"%char :: l => digits_value 0 true l
  | l => digits_value 0 true l
  end.

(** [int(v)].  The interpreter's cap on the number of digits of a literal
    is a run-time setting and is not part of the model. *)
Definition py_int (v : pyval) : result Z :=
  match v with
  | PInt n => Ok n
  | PBool b => Ok (Z.b2z b)
  | PStr s =>
      match int_of_string s with
      | Some n => Ok n
      | None => Raise ValueError
      end
  | _ => Raise TypeError
  end.

(** *** [str.split(sep)] for a non-empty separator *)

Fixpoint split_aux (sep : string) (skip : nat) (cur : string) (s : string) : list string :=
  match s with
  | EmptyString => [cur]
  | String c s' =>
      match skip with
      | S n => split_aux sep n cur s'
      | O =>
          if String.prefix sep s
          then cur :: split_aux sep (String.length sep - 1) "" s'
          else split_aux sep 0 (cur +:+ String c EmptyString) s'
      end
  end.

Definition str_split (sep s : string) : list string := split_aux sep 0 "" s.

(** [v.split(sep)]: only strings have the method. *)
Definition py_split (v : pyval) (sep : string) : result pyval :=
  match v with
  | PStr s => Ok (PList (PStr <$> str_split sep s))
  | _ => Raise AttributeError
  end.

(** ** Regular expressions and [EMAIL_RE] *)

Inductive regex : Type :=
| RNever
| REmpty
| RChar (c : ascii)
| RNotChar (c : ascii)
| RSeq (r1 r2 : regex)
| RAlt (r1 r2 : regex)
| RStar (r : regex).

Definition RPlus (r : regex) : regex := RSeq r (RStar r).

Fixpoint nullable (r : regex) : bool :=
  match r with
  | RNever | RChar _ | RNotChar _ => false
  | REmpty | RStar _ => true
  | RSeq r1 r2 => nullable r1 && nullable r2
  | RAlt r1 r2 => nullable r1 || nullable r2
  end.

Fixpoint deriv (a : ascii) (r : regex) : regex :=
  match r with
  | RNever | REmpty => RNever
  | RChar c => if bool_decide (a = c) then REmpty else RNever
  | RNotChar c => if bool_decide (a = c) then RNever else REmpty
  | RSeq r1 r2 =>
      if nullable r1
      then RAlt (RSeq (deriv a r1) r2) (deriv a r2)
      else RSeq (deriv a r1) r2
  | RAlt r1 r2 => RAlt (deriv a r1) (deriv a r2)
  | RStar r1 => RSeq (deriv a r1) (RStar r1)
  end.

Fixpoint fullmatch (r : regex) (s : string) : bool :=
  match s with
  | EmptyString => nullable r
  | String a s' => fullmatch (deriv a r) s'
  end.

(** [re.compile(r"[^@]+@[^@]+\.[^@]+")] *)
Definition EMAIL_RE : regex :=
  RSeq (RPlus (RNotChar "@"))
    (RSeq (RChar "@")
       (RSeq (RPlus (RNotChar "@"))
          (RSeq (RChar ".") (RPlus (RNotChar "@"))))).

(** ** Dates *)

(** A [datetime] is the number of microseconds since 0001-01-01T00:00;
    [datetime.max] is the last microsecond of year 9999. *)
Definition day_us : Z := 86400000000.
Definition datetime_span : Z := 3652059 * day_us.

(** [datetime.timedelta(days=d)] *)
Definition timedelta_days (d : Z) : result Z :=
  if Z.abs d <=? 999999999 then Ok (d * day_us) else Raise OverflowError.

(** [t + delta] *)
Definition datetime_add (t delta : Z) : result Z :=
  let r := t + delta in
  if (0 <=? r) && (r <? datetime_span) then Ok r else Raise OverflowError.

(** ** Local records (app.models) *)

Record User : Type := mkUser {
  u_username : string;
  u_email : string;
  u_password : string;
  u_token : string;
  u_code : string;
  u_expires : option Z;
}.

Record Library : Type := mkLibrary {
  lib_external_id : string;
  lib_name : string;
  lib_enabled : bool;
}.

(** [inv_duration] is kept as the Python value the column holds
    ([None], a number or a string): the code tests its truthiness and
    converts it with [int]. *)
Record Invitation : Type := mkInvitation {
  inv_code : string;
  inv_used : bool;
  inv_unlimited : bool;
  inv_used_at : option Z;
  inv_used_by : option User;
  inv_duration : pyval;
  inv_libraries : list Library;
}.

Record Db : Type := mkDb {
  db_users : list User;
  db_invitations : list Invitation;
  db_libraries : list Library;
}.

#[global] Instance User_eq_dec : EqDecision User.
Proof. solve_decision. Defined.

(** ** HTTP *)

Inductive method : Type := GET | POST | DELETE.

#[global] Instance method_eq_dec : EqDecision method.
Proof. solve_decision. Defined.

Record request : Type := mkRequest {
  rq_method : method;
  rq_path : string;
  rq_json : option pyval;
}.

(** What [requests] gets back: nothing (connection failure or timeout after
    ten seconds), or a status line with a body that may or may not be JSON. *)
Inductive outcome : Type :=
| NoResponse
| Response (status : Z) (body : option pyval).

Record response : Type := mkResponse {
  status_code : Z;
  body : option pyval;
}.

Definition raise_for_status (r : response) : result unit :=
  if (400 <=? status_code r) && (status_code r <? 600)
  then Raise (HTTPError (status_code r))
  else Ok tt.

(** [r.json()] *)
Definition response_json (r : response) : result pyval :=
  match body r with
  | Some v => Ok v
  | None => Raise JSONDecodeError
  end.

Inductive log_entry : Type :=
| LogWarning (text : string)
| LogError (text : string) (cause : exn).

(** ** The environment *)

Class Environment : Type := {
  (** the state of everything outside the process *)
  outside : Type;
  (** the media server answers a request *)
  serve : request -> outside -> outcome * outside;
  (** the persistence engine accepts or refuses to commit a session *)
  try_commit : Db -> outside -> bool * outside;
  (** [notify(title, body, tags)] returns or raises *)
  notify : string -> string -> string -> outside -> bool * outside;
  (** [is_invite_valid(code)], a read of the local records *)
  is_invite_valid : string -> Db -> bool * string;
  (** [datetime.datetime.utcnow()] and [datetime.datetime.now()] *)
  utcnow : Z;
  now : Z;
}.

(** ** The process state and its computations *)

Section Emby.
Context `{env : Environment}.

(** [w_db] is the session's view of the local records (committed rows plus
    pending changes, which queries see through autoflush); [w_saved] is
    what has been committed. *)
Record world : Type := mkWorld {
  w_out : outside;
  w_http : list request;
  w_db : Db;
  w_saved : Db;
  w_log : list log_entry;
}.

Definition M (A : Type) : Type := world -> result A * world.

#[global] Instance M_ret : MRet M := fun A a w => (Ok a, w).
#[global] Instance M_bind : MBind M := fun A B f m w =>
  match m w with
  | (Ok a, w') => f a w'
  | (Raise e, w') => (Raise e, w')
  end.

Definition lift {A} (r : result A) : M A := fun w => (r, w).

Definition raise {A} (e : exn) : M A := fun w => (Raise e, w).

(** [try: m  except Exception as e: h e] *)
Definition try_except {A} (m : M A) (h : exn -> M A) : M A := fun w =>
  match m w with
  | (Ok a, w') => (Ok a, w')
  | (Raise e, w') => h e w'
  end.

Fixpoint for_each {A} (l : list A) (body : A -> M unit) : M unit :=
  match l with
  | [] => mret tt
  | x :: l' => body x;; for_each l' body
  end.

Definition log_warning (text : string) : M unit := fun w =>
  (Ok tt, mkWorld (w_out w) (w_http w) (w_db w) (w_saved w) (w_log w ++ [LogWarning text])).

Definition log_error (text : string) (cause : exn) : M unit := fun w =>
  (Ok tt, mkWorld (w_out w) (w_http w) (w_db w) (w_saved w) (w_log w ++ [LogError text cause])).

(** One exchange with the media server; the request is recorded. *)
Definition http (rq : request) : M outcome := fun w =>
  let '(o, out') := serve rq (w_out w) in
  (Ok o, mkWorld out' (w_http w ++ [rq]) (w_db w) (w_saved w) (w_log w)).

(** *** The session *)

Definition query {A} (f : Db -> A) : M A := fun w => (Ok (f (w_db w)), w).

Definition set_db (db : Db) : M unit := fun w =>
  (Ok tt, mkWorld (w_out w) (w_http w) db (w_saved w) (w_log w)).

(** [db.session.add(u)] *)
Definition session_add (u : User) : M unit :=
  db ← query id;
  set_db (mkDb (db_users db ++ [u]) (db_invitations db) (db_libraries db)).

Fixpoint remove_first (u : User) (l : list User) : list User :=
  match l with
  | [] => []
  | x :: l' => if decide (u = x) then l' else x :: remove_first u l'
  end.

(** [db.session.delete(u)] *)
Definition session_delete (u : User) : M unit :=
  db ← query id;
  set_db (mkDb (remove_first u (db_users db)) (db_invitations db) (db_libraries db)).

(** Attribute writes on the invitation loaded from row [i]. *)
Definition session_store_invitation (i : nat) (inv : Invitation) : M unit :=
  db ← query id;
  set_db (mkDb (db_users db) (<[i := inv]> (db_invitations db)) (db_libraries db)).

(** [db.session.commit()] *)
Definition commit : M unit := fun w =>
  let '(accepted, out') := try_commit (w_db w) (w_out w) in
  if accepted
  then (Ok tt, mkWorld out' (w_http w) (w_db w) (w_db w) (w_log w))
  else (Raise DatabaseError, mkWorld out' (w_http w) (w_db w) (w_saved w) (w_log w)).

(** [db.session.rollback()] *)
Definition rollback : M unit := fun w =>
  (Ok tt, mkWorld (w_out w) (w_http w) (w_saved w) (w_saved w) (w_log w)).

(** [notify(title, body, tags=tags)] *)
Definition send_notification (title text tags : string) : M unit := fun w =>
  let '(delivered, out') := notify title text tags (w_out w) in
  (if delivered then Ok tt else Raise NotifyError,
   mkWorld out' (w_http w) (w_db w) (w_saved w) (w_log w)).

(** ** EmbyClient *)

Definition send (rq : request) : M response :=
  o ← http rq;
  match o with
  | NoResponse => raise ConnectionError
  | Response status body =>
      let r := mkResponse status body in
      lift (raise_for_status r);; mret r
  end.

(** [EmbyClient.get], [EmbyClient.post], [EmbyClient.delete] *)
Definition client_get (path : string) : M response :=
  send (mkRequest GET path None).

Definition client_post (path : string) (payload : pyval) : M response :=
  send (mkRequest POST path (Some payload)).

Definition client_delete (path : string) : M response :=
  send (mkRequest DELETE path None).

(** The [(Id, Name)] pairs of a sequence of media folders. *)
Fixpoint folder_pairs (items : list pyval) : result (list (string * string)) :=
  match items with
  | [] => Ok []
  | item :: rest =>
      folder_id ← str_field item "Id";
      folder_name ← str_field item "Name";
      ps ← folder_pairs rest;
      Ok ((folder_id, folder_name) :: ps)
  end.

(** [{k: v for (k, v) in pairs}] *)
Definition dict_of_pairs {V} (pairs : list (string * V)) : list (string * V) :=
  foldl (fun d kv => dict_set kv.1 kv.2 d) [] pairs.

Definition libraries : M (list (string * string)) :=
  r ← client_get "/Library/MediaFolders";
  v ← lift (response_json r);
  items ← lift (py_getitem v "Items");
  items ← lift (py_iter items);
  pairs ← lift (folder_pairs items);
  mret (dict_of_pairs pairs).

Definition create_user (username password : string) : M string :=
  r ← client_post "/Users/New" (PDict [("Name", PStr username)]);
  user ← lift (response_json r);
  user_id ← lift (str_field user "Id");
  try_except
    (client_post ("/Users/" +:+ user_id +:+ "/Password")
       (PDict [("NewPw", PStr password);
               ("CurrentPw", PStr "");
               ("ResetPassword", PBool false)]);;
     mret tt)
    (fun e => log_error ("Failed to set password for user " +:+ username) e);;
  mret user_id.

Definition set_policy (user_id : string) (policy : pyval) : M unit :=
  client_post ("/Users/" +:+ user_id +:+ "/Policy") policy;; mret tt.

Definition delete_user (user_id : string) : M unit :=
  client_delete ("/Users/" +:+ user_id);; mret tt.

Definition get_user (emby_id : string) : M pyval :=
  r ← client_get ("/Users/" +:+ emby_id);
  lift (response_json r).

Fixpoint fold_result {A B} (f : A -> B -> result A) (a : A) (l : list B) : result A :=
  match l with
  | [] => Ok a
  | x :: l' => a' ← f a x; fold_result f a' l'
  end.

(** The coercion of lines 98-103: the patch value is converted after the
    run-time type of the field it replaces. *)
Definition coerce (target val : pyval) : result pyval :=
  match target with
  | PBool _ => Ok (PBool (py_eq_str val "True"))
  | PInt _ => n ← py_int val; Ok (PInt n)
  | PList _ => if py_eq_str val "" then Ok (PList []) else py_split val ", "
  | _ => Ok val
  end.

(** The body of the inner loop (lines 96-104) for one [section]; the state
    is the account and the loop variable [val], which the body rebinds. *)
Definition update_field (key : string) (st : pyval * pyval) (section : string)
  : result (pyval * pyval) :=
  let '(current, val) := st in
  block ← py_getitem current section;
  present ← py_contains key block;
  if present : bool then
    target ← py_getitem block key;
    val ← coerce target val;
    block ← py_setitem block key val;
    current ← py_setitem current section block;
    Ok (current, val)
  else Ok (current, val).

Definition update_fields (current : pyval) (form : list (string * pyval)) : result pyval :=
  fold_result
    (fun current kv =>
       st ← fold_result (update_field kv.1) (current, kv.2) ["Policy"; "Configuration"];
       Ok st.1)
    current form.

Definition update_user (emby_id : string) (form : list (string * pyval)) : M pyval :=
  current ← get_user emby_id;
  current ← lift (update_fields current form);
  r ← client_post ("/Users/" +:+ emby_id) current;
  lift (response_json r).

(** [{u["Id"]: u for u in accounts}] *)
Definition accounts_by_id (accounts : list pyval) : result (list (string * pyval)) :=
  fold_result (fun d u => uid ← str_field u "Id"; Ok (dict_set uid u d)) [] accounts.

Definition list_users : M (list User) :=
  r ← client_get "/Users";
  v ← lift (response_json r);
  accounts ← lift (py_iter v);
  emby_users ← lift (accounts_by_id accounts);
  for_each (dict_values emby_users) (fun emby =>
    token ← lift (str_field emby "Id");
    existing ← query (fun db =>
      List.find (fun u => bool_decide (u_token u = token)) (db_users db));
    match existing with
    | Some _ => mret tt
    | None =>
        token ← lift (str_field emby "Id");
        name ← lift (str_field emby "Name");
        session_add (mkUser name "empty" "empty" token "empty" None)
    end);;
  commit;;
  users ← query db_users;
  for_each users (fun dbu =>
    if dict_mem (u_token dbu) emby_users then mret tt else session_delete dbu);;
  commit;;
  query db_users.

(** ** Helper functions *)

(** The attribute writes of lines 138-140. *)
Definition used_invitation (inv : Invitation) (user : User) : Invitation :=
  mkInvitation (inv_code inv)
    (if negb (inv_unlimited inv) then true else inv_used inv)
    (inv_unlimited inv)
    (Some now)
    (Some user)
    (inv_duration inv)
    (inv_libraries inv).

(** [inv] is the record loaded from row [i] of the invitation table. *)
Definition mark_invite_used (i : nat) (inv : Invitation) (user : User) : M unit :=
  session_store_invitation i (used_invitation inv user);;
  commit.

Definition folder_name_to_id (name : string) (cache : list (string * string))
  : option string :=
  if dict_mem name cache then Some name
  else fst <$> List.find (fun kv => bool_decide (kv.2 = name)) cache.

(** The loop of lines 190-201 over the requested [names]. *)
Fixpoint collect_folders (id_to_name name_to_id : list (string * string))
  (names : list string) (folder_ids : list string) : M (list string) :=
  match names with
  | [] => mret folder_ids
  | name :: rest =>
      if dict_mem name id_to_name
      then collect_folders id_to_name name_to_id rest (folder_ids ++ [name])
      else match dict_get name name_to_id with
           | Some folder_id =>
               collect_folders id_to_name name_to_id rest (folder_ids ++ [folder_id])
           | None =>
               log_warning ("Could not find library matching: " +:+ name);;
               collect_folders id_to_name name_to_id rest folder_ids
           end
  end.

(** [list(set([fid for fid in folder_ids if fid]))]: the order in which a
    [set] lists its members is not specified; [elements] fixes one. *)
Definition distinct_ids (folder_ids : list string) : list string :=
  elements (list_to_set (filter (fun fid => fid ≠ "") folder_ids) : gset string).

Definition playback_permissions : list (string * pyval) :=
  [("EnableMediaPlayback", PBool true);
   ("EnableAudioPlaybackTranscoding", PBool true);
   ("EnableVideoPlaybackTranscoding", PBool true);
   ("EnablePlaybackRemuxing", PBool true);
   ("EnableContentDownloading", PBool true);
   ("EnableRemoteAccess", PBool true)].

Definition policy_patch (folder_ids : list string) : list (string * pyval) :=
  [("EnableAllFolders", PBool (negb (py_truthy (PList (PStr <$> folder_ids)))));
   ("EnabledFolders", PList (PStr <$> folder_ids))].

Definition set_specific_folders (user_id : string) (names : list string) : M unit :=
  response ← client_get "/Library/MediaFolders";
  v ← lift (response_json response);
  media_folders ← lift (match v with
                        | PDict d => Ok (default (PList []) (dict_get "Items" d))
                        | _ => Raise AttributeError
                        end);
  items ← lift (py_iter media_folders);
  pairs ← lift (folder_pairs items);
  let id_to_name := dict_of_pairs pairs in
  let name_to_id := dict_of_pairs (prod_swap <$> pairs) in
  folder_ids ← collect_folders id_to_name name_to_id names [];
  let folder_ids := distinct_ids folder_ids in
  (if py_truthy (PList (PStr <$> folder_ids)) then mret tt
   else log_warning "No matching libraries found, user will have no access");;
  account ← get_user user_id;
  current ← lift (py_getitem account "Policy");
  current ← lift (match current with
                  | PDict d => Ok d
                  | _ => Raise AttributeError
                  end);
  let current := dict_update current (policy_patch folder_ids) in
  let current := dict_update current playback_permissions in
  set_policy user_id (PDict current).

(** ** The provisioning workflow *)

(** [expires] of lines 296-300. *)
Definition compute_expires (duration : pyval) : result (option Z) :=
  if py_truthy duration then
    days ← py_int duration;
    delta ← timedelta_days days;
    t ← datetime_add utcnow delta;
    Ok (Some t)
  else Ok None.

(** Lines 275-320: the steps of the [try] block after [create_user]. *)
Definition join_provision (username email code user_id : string) : M (bool * string) :=
  found ← query (fun db =>
    list_find (fun inv => inv_code inv = code) (db_invitations db));
  '(i, inv) ← match found with
              | Some row => mret row
              | None => raise AttributeError
              end;
  sections ← match inv_libraries inv with
             | _ :: _ => mret (lib_external_id <$> inv_libraries inv)
             | [] => query (fun db =>
                 lib_external_id <$> filter (fun l => lib_enabled l = true) (db_libraries db))
             end;
  set_specific_folders user_id sections;;
  expires ← lift (compute_expires (inv_duration inv));
  let new_user := mkUser username email "emby-user" user_id code expires in
  session_add new_user;;
  commit;;
  mark_invite_used i inv new_user;;
  send_notification "New User"
    ("User " +:+ username +:+ " has joined your Emby server! 🎉") "tada";;
  mret (true, "").

(** The [except Exception] clause of [join] (lines 322-325). *)
Definition join_handler (e : exn) : M (bool * string) :=
  log_error "Emby join error" e;;
  rollback;;
  mret (false, "An unexpected error occurred during user creation.").

Definition join (username password confirm email code : string) : M (bool * string) :=
  if negb (fullmatch EMAIL_RE email) then
    mret (false, "Invalid e-mail address.")
  else if negb ((8 <=? String.length password)%nat && (String.length password <=? 20)%nat) then
    mret (false, "Password must be 8–20 characters.")
  else if bool_decide (password ≠ confirm) then
    mret (false, "Passwords do not match.")
  else
    '(ok, msg) ← query (is_invite_valid code);
    if negb ok then mret (false, msg)
    else
      existing ← query (fun db =>
        List.find (fun u => bool_decide (u_username u = username)
                            || bool_decide (u_email u = email)) (db_users db));
      match existing with
      | Some _ => mret (false, "User or e-mail already exists.")
      | None =>
          try_except
            (user_id ← create_user username password;
             join_provision username email code user_id)
            join_handler
      end.

(** ** Notions used to state the properties *)

(** The outcome of the checks that open [join] (lines 247-265): the
    message of the first check that rejects the request, if any. *)
Definition join_checks (username password confirm email code : string) (db : Db)
  : option string :=
  if negb (fullmatch EMAIL_RE email) then Some "Invalid e-mail address."
  else if negb ((8 <=? String.length password)%nat && (String.length password <=? 20)%nat)
  then Some "Password must be 8–20 characters."
  else if bool_decide (password ≠ confirm) then Some "Passwords do not match."
  else if negb (is_invite_valid code db).1 then Some (is_invite_valid code db).2
  else match List.find (fun u => bool_decide (u_username u = username)
                                 || bool_decide (u_email u = email)) (db_users db) with
       | Some _ => Some "User or e-mail already exists."
       | None => None
       end.

(** What one reference contributes to [folder_ids] in [collect_folders]. *)
Definition match_folder (id_to_name name_to_id : list (string * string))
  (name : string) : option string :=
  if dict_mem name id_to_name then Some name else dict_get name name_to_id.

(** The identifiers [set_specific_folders] grants for the references
    [names] against the catalog [pairs] of [(Id, Name)] entries. *)
Definition resolve (names : list string) (pairs : list (string * string)) : gset string :=
  list_to_set
    (filter (fun fid => fid ≠ "")
       (omap (match_folder (dict_of_pairs pairs) (dict_of_pairs (prod_swap <$> pairs)))
          names)).

(** [m] takes every world to one that [R] relates to it. *)
Definition preserves (R : world -> world -> Prop) {A} (m : M A) : Prop :=
  forall w, R w (m w).2.

(** [w'] extends the request log of [w] with requests that satisfy [P]. *)
Definition only_issues (P : request -> Prop) (w w' : world) : Prop :=
  exists reqs, w_http w' = w_http w ++ reqs /\ Forall P reqs.

(** The session and the committed records are those of [w]. *)
Definition same_records (w w' : world) : Prop :=
  w_db w' = w_db w /\ w_saved w' = w_saved w.

Definition not_delete (rq : request) : Prop := rq_method rq <> DELETE.

(** The placeholder record [list_users] creates for a remote account. *)
Definition placeholder (token name : string) : User :=
  mkUser name "empty" "empty" token "empty" None.

(** One turn of the first loop of [list_users] (lines 112-122), on the
    users the session holds. *)
Definition add_missing (users : list User) (emby : pyval) : result (list User) :=
  token ← str_field emby "Id";
  match List.find (fun u => bool_decide (u_token u = token)) users with
  | Some _ => Ok users
  | None => name ← str_field emby "Name"; Ok (users ++ [placeholder token name])
  end.

(** One turn of the second loop of [list_users] (lines 125-127). *)
Definition drop_orphan {V} (emby_users : list (string * V)) (users : list User) (dbu : User)
  : list User :=
  if dict_mem (u_token dbu) emby_users then users else remove_first dbu users.

(** The world whose session holds [users]. *)
Definition with_users (users : list User) (w : world) : world :=
  mkWorld (w_out w) (w_http w)
    (mkDb users (db_invitations (w_db w)) (db_libraries (w_db w)))
    (w_saved w) (w_log w).

End Emby.

(** ** A scripted environment

    The media server answers the successive requests with the successive
    entries of [answers] (no response once the script is over); the
    persistence engine and the notification sink follow [commits] and
    [deliveries] (accepting once the script is over).  An invitation code
    is valid when an unused or unlimited invitation carries it. *)

Record script : Type := mkScript {
  answers : list outcome;
  commits : list bool;
  deliveries : list bool;
}.

Definition scripted_serve (rq : request) (s : script) : outcome * script :=
  match answers s with
  | [] => (NoResponse, s)
  | o :: rest => (o, mkScript rest (commits s) (deliveries s))
  end.

Definition scripted_commit (db : Db) (s : script) : bool * script :=
  match commits s with
  | [] => (true, s)
  | b :: rest => (b, mkScript (answers s) rest (deliveries s))
  end.

Definition scripted_notify (title text tags : string) (s : script) : bool * script :=
  match deliveries s with
  | [] => (true, s)
  | b :: rest => (b, mkScript (answers s) (commits s) rest)
  end.

Definition scripted_validity (code : string) (db : Db) : bool * string :=
  match List.find (fun inv => bool_decide (inv_code inv = code)) (db_invitations db) with
  | None => (false, "Invalid code")
  | Some inv =>
      if inv_used inv && negb (inv_unlimited inv)
      then (false, "Invitation has already been used.")
      else (true, "okay")
  end.

Definition scripted : Environment := {|
  outside := script;
  serve := scripted_serve;
  try_commit := scripted_commit;
  notify := scripted_notify;
  is_invite_valid := scripted_validity;
  utcnow := 63900000000000000;
  now := 63900003600000000;
|}.

(** A local directory with one unused invitation and two libraries, and
    the answers of a media server to a provisioning run that goes well. *)
Definition demo_invitation (duration : pyval) : Invitation :=
  mkInvitation "INVITE" false false None None duration [].

Definition demo_db (duration : pyval) : Db :=
  mkDb [] [demo_invitation duration]
    [mkLibrary "1" "Movies" true; mkLibrary "2" "Shows" false].

Definition demo_created : outcome :=
  Response 200 (Some (PDict [("Id", PStr "u1"); ("Name", PStr "bob")])).

Definition demo_folders : outcome :=
  Response 200
    (Some (PDict [("Items",
       PList [PDict [("Id", PStr "1"); ("Name", PStr "Movies")];
              PDict [("Id", PStr "2"); ("Name", PStr "Shows")]])])).

Definition demo_account : outcome :=
  Response 200
    (Some (PDict [("Name", PStr "bob");
                  ("Policy", PDict [("IsAdministrator", PBool false);
                                    ("EnableMediaPlayback", PBool false);
                                    ("EnableAllFolders", PBool true)])])).

Definition demo_answers : list outcome :=
  [demo_created; Response 204 None; demo_folders; demo_account; Response 204 None].

Definition demo_world (s : script) (db : Db) : world (env := scripted) :=
  mkWorld (env := scripted) s [] db db [].

(** A directory sync: the media server knows the accounts A and B, the
    local directory the users of A and C. *)
Definition sync_accounts : list pyval :=
  [PDict [("Id", PStr "A"); ("Name", PStr "alice")];
   PDict [("Id", PStr "B"); ("Name", PStr "bruno")]].

Definition sync_user_A : User := mkUser "alice" "alice@example.org" "emby-user" "A" "INVITE" None.
Definition sync_user_C : User := mkUser "carol" "carol@example.org" "emby-user" "C" "INVITE" None.

Definition sync_world : world (env := scripted) :=
  demo_world (mkScript [Response 200 (Some (PList sync_accounts))] [] [])
    (mkDb [sync_user_A; sync_user_C] [] []).

(** * Properties *)

(** ** Frames: what a computation leaves alone *)

Section Frame.
Context `{env : Environment}.
Variable R : world -> world -> Prop.
Hypothesis R_refl : forall w, R w w.
Hypothesis R_trans : forall w1 w2 w3, R w1 w2 -> R w2 w3 -> R w1 w3.

Lemma preserves_ret {A} (a : A) : preserves R (mret a).
Proof. intros w. apply R_refl. Qed.

Lemma preserves_lift {A} (r : result A) : preserves R (lift r).
Proof. intros w. apply R_refl. Qed.

Lemma preserves_raise {A} (e : exn) : preserves R (raise (A := A) e).
Proof. intros w. apply R_refl. Qed.

Lemma preserves_query {A} (f : Db -> A) : preserves R (query f).
Proof. intros w. apply R_refl. Qed.

Lemma preserves_bind {A B} (m : M A) (f : A -> M B) :
  preserves R m -> (forall a, preserves R (f a)) -> preserves R (m ≫= f).
Proof.
  intros Hm Hf w. specialize (Hm w). unfold mbind, M_bind.
  destruct (m w) as [[a|e] w1]; simpl in *; [|done].
  eapply R_trans; [exact Hm | apply Hf].
Qed.

Lemma preserves_try_except {A} (m : M A) (h : exn -> M A) :
  preserves R m -> (forall e, preserves R (h e)) -> preserves R (try_except m h).
Proof.
  intros Hm Hh w. specialize (Hm w). unfold try_except.
  destruct (m w) as [[a|e] w1]; simpl in *; [done|].
  eapply R_trans; [exact Hm | apply Hh].
Qed.

Lemma preserves_for_each {A} (l : list A) (body : A -> M unit) :
  (forall x, preserves R (body x)) -> preserves R (for_each l body).
Proof.
  intros Hbody. induction l as [|x l IH]; simpl.
  - apply preserves_ret.
  - apply preserves_bind; auto.
Qed.

End Frame.

Section Frames.
Context `{env : Environment}.

Lemma only_issues_refl P w : only_issues P w w.
Proof. exists []. by rewrite app_nil_r. Qed.

Lemma only_issues_trans P w1 w2 w3 :
  only_issues P w1 w2 -> only_issues P w2 w3 -> only_issues P w1 w3.
Proof.
  intros (l1 & E1 & F1) (l2 & E2 & F2). exists (l1 ++ l2). split.
  - by rewrite E2, E1, app_assoc.
  - by apply Forall_app.
Qed.

Lemma same_records_refl w : same_records w w.
Proof. done. Qed.

Lemma same_records_trans w1 w2 w3 :
  same_records w1 w2 -> same_records w2 w3 -> same_records w1 w3.
Proof. intros [E1 F1] [E2 F2]. split; congruence. Qed.

End Frames.

(** Decomposes a frame goal along the structure of the computation. *)
Ltac frame_with Hrefl Htrans :=
  repeat first
    [ solve [auto with frame]
    | apply (preserves_ret _ Hrefl)
    | apply (preserves_lift _ Hrefl)
    | apply (preserves_raise _ Hrefl)
    | apply (preserves_query _ Hrefl)
    | apply (preserves_bind _ Htrans)
    | apply (preserves_try_except _ Htrans)
    | apply (preserves_for_each _ Hrefl Htrans)
    | progress intros
    | match goal with
      | |- preserves _ (match ?x with _ => _ end) => destruct x
      end ].

Create HintDb frame.

Section FrameOperations.
Context `{env : Environment}.

(** *** Requests issued *)

Lemma http_issues P rq : P rq -> preserves (only_issues P) (http rq).
Proof.
  intros HP w. unfold http. destruct (serve rq (w_out w)) as [o out']. simpl.
  exists [rq]. split; [done | by constructor].
Qed.

Lemma send_issues P rq : P rq -> preserves (only_issues P) (send rq).
Proof.
  intros HP. unfold send.
  apply (preserves_bind _ (only_issues_trans P)); [by apply http_issues|].
  frame_with (only_issues_refl P) (only_issues_trans P).
Qed.

Lemma log_warning_issues P text : preserves (only_issues P) (log_warning text).
Proof. intros w. exists []. simpl. by rewrite app_nil_r. Qed.

Lemma log_error_issues P text e : preserves (only_issues P) (log_error text e).
Proof. intros w. exists []. simpl. by rewrite app_nil_r. Qed.

Lemma set_db_issues P db : preserves (only_issues P) (set_db db).
Proof. intros w. exists []. simpl. by rewrite app_nil_r. Qed.

Lemma commit_issues P : preserves (only_issues P) commit.
Proof.
  intros w. unfold commit. exists [].
  destruct (try_commit _ _) as [[] out']; simpl; by rewrite app_nil_r.
Qed.

Lemma rollback_issues P : preserves (only_issues P) rollback.
Proof. intros w. exists []. simpl. by rewrite app_nil_r. Qed.

Lemma send_notification_issues P title text tags :
  preserves (only_issues P) (send_notification title text tags).
Proof.
  intros w. unfold send_notification. exists [].
  destruct (notify _ _ _ _) as [[] out']; simpl; by rewrite app_nil_r.
Qed.

(** *** Records kept *)

Lemma http_keeps_records rq : preserves same_records (http rq).
Proof. intros w. unfold http. by destruct (serve rq (w_out w)). Qed.

Lemma send_keeps_records rq : preserves same_records (send rq).
Proof.
  unfold send.
  apply (preserves_bind _ (@same_records_trans _)); [apply http_keeps_records|].
  frame_with (@same_records_refl _) (@same_records_trans _).
Qed.

Lemma log_warning_keeps_records text : preserves same_records (log_warning text).
Proof. by intros w. Qed.

Lemma log_error_keeps_records text e : preserves same_records (log_error text e).
Proof. by intros w. Qed.

Lemma send_notification_keeps_records title text tags :
  preserves same_records (send_notification title text tags).
Proof. intros w. unfold send_notification. by destruct (notify _ _ _ _) as [[] out']. Qed.

End FrameOperations.

#[global] Hint Resolve log_warning_issues log_error_issues set_db_issues commit_issues
  rollback_issues send_notification_issues log_warning_keeps_records
  log_error_keeps_records send_notification_keeps_records send_keeps_records : frame.

Ltac issues := frame_with (only_issues_refl not_delete) (only_issues_trans not_delete).
Ltac keeps := frame_with (@same_records_refl _) (@same_records_trans _).

Section FrameClient.
Context `{env : Environment}.

Lemma client_get_no_delete path : preserves (only_issues not_delete) (client_get path).
Proof. by apply send_issues. Qed.

Lemma client_post_no_delete path payload :
  preserves (only_issues not_delete) (client_post path payload).
Proof. by apply send_issues. Qed.

Lemma client_get_keeps_records path : preserves same_records (client_get path).
Proof. apply send_keeps_records. Qed.

Lemma client_post_keeps_records path payload :
  preserves same_records (client_post path payload).
Proof. apply send_keeps_records. Qed.

Hint Resolve client_get_no_delete client_post_no_delete client_get_keeps_records
  client_post_keeps_records : frame.

Lemma create_user_no_delete u p : preserves (only_issues not_delete) (create_user u p).
Proof. unfold create_user. issues. Qed.

Lemma create_user_keeps_records u p : preserves same_records (create_user u p).
Proof. unfold create_user. keeps. Qed.

Lemma get_user_no_delete uid : preserves (only_issues not_delete) (get_user uid).
Proof. unfold get_user. issues. Qed.

Lemma get_user_keeps_records uid : preserves same_records (get_user uid).
Proof. unfold get_user. keeps. Qed.

Lemma collect_folders_no_delete d1 d2 names acc :
  preserves (only_issues not_delete) (collect_folders d1 d2 names acc).
Proof.
  revert acc. induction names as [|n names IH]; intros acc; simpl; [issues|].
  destruct (dict_mem n d1); [apply IH|].
  destruct (dict_get n d2); [apply IH|]. issues.
Qed.

Lemma collect_folders_keeps_records d1 d2 names acc :
  preserves same_records (collect_folders d1 d2 names acc).
Proof.
  revert acc. induction names as [|n names IH]; intros acc; simpl; [keeps|].
  destruct (dict_mem n d1); [apply IH|].
  destruct (dict_get n d2); [apply IH|]. keeps.
Qed.

Hint Resolve get_user_no_delete get_user_keeps_records collect_folders_no_delete
  collect_folders_keeps_records : frame.

Lemma set_specific_folders_no_delete uid names :
  preserves (only_issues not_delete) (set_specific_folders uid names).
Proof. unfold set_specific_folders, set_policy. issues. Qed.

Lemma set_specific_folders_keeps_records uid names :
  preserves same_records (set_specific_folders uid names).
Proof. unfold set_specific_folders, set_policy. keeps. Qed.

Hint Resolve set_specific_folders_no_delete create_user_no_delete : frame.

Lemma join_provision_no_delete u e code uid :
  preserves (only_issues not_delete) (join_provision u e code uid).
Proof. unfold join_provision, mark_invite_used, session_add, session_store_invitation. issues. Qed.

Lemma join_no_delete u p c e code :
  preserves (only_issues not_delete) (join u p c e code).
Proof.
  pose proof (join_provision_no_delete u e code).
  unfold join, join_handler. issues.
Qed.

End FrameClient.

(** Membership in a list that is given by its members. *)
Ltac in_list :=
  repeat first [apply list_elem_of_here | apply list_elem_of_further].

(** ** The provisioning workflow *)

Section Workflow.
Context `{env : Environment}.

Lemma join_after_checks u p c e code w :
  join u p c e code w =
  match join_checks u p c e code (w_db w) with
  | Some msg => (Ok (false, msg), w)
  | None => try_except (create_user u p ≫= join_provision u e code) join_handler w
  end.
Proof.
  unfold join, join_checks.
  destruct (negb (fullmatch EMAIL_RE e)); [done|].
  destruct (negb _); [done|].
  destruct (bool_decide (p ≠ c)); [done|].
  unfold mbind at 1, M_bind at 1, query at 1.
  destruct (is_invite_valid code (w_db w)) as [ok msg]; simpl.
  destruct ok; simpl; [|done].
  unfold mbind at 1, M_bind at 1, query at 1.
  by destruct (List.find _ _).
Qed.

Lemma join_checks_reject u p c e code db :
  fullmatch EMAIL_RE e = false \/
  ~ (8 <= String.length p <= 20)%nat \/
  p <> c \/
  (is_invite_valid code db).1 = false \/
  (exists usr, usr ∈ db_users db /\ (u_username usr = u \/ u_email usr = e)) ->
  exists msg, join_checks u p c e code db = Some msg /\
    msg ∈ ["Invalid e-mail address."; "Password must be 8–20 characters.";
           "Passwords do not match."; (is_invite_valid code db).2;
           "User or e-mail already exists."].
Proof.
  intros Hbad. unfold join_checks.
  destruct (negb (fullmatch EMAIL_RE e)) eqn:He;
    [eexists; split; [reflexivity|in_list]|].
  destruct (negb ((8 <=? String.length p)%nat && (String.length p <=? 20)%nat)) eqn:Hp;
    [eexists; split; [reflexivity|in_list]|].
  case_bool_decide as Hc; [eexists; split; [reflexivity|in_list]|].
  destruct (negb (is_invite_valid code db).1) eqn:Hv;
    [eexists; split; [reflexivity|in_list]|].
  destruct (List.find _ (db_users db)) eqn:Hf; [eexists; split; [reflexivity|in_list]|].
  apply negb_false_iff in He, Hp, Hv.
  exfalso. destruct Hbad as [?|[Hlen|[Hne|[?|(usr & Hin & Husr)]]]]; try congruence.
  - apply Hlen. apply andb_true_iff in Hp as [H1 H2].
    apply Nat.leb_le in H1, H2. lia.
  - apply list_elem_of_In in Hin. eapply find_none in Hf; [|exact Hin].
    apply orb_false_iff in Hf as [H1 H2].
    apply bool_decide_eq_false in H1, H2. tauto.
Qed.

(** C10.  When the e-mail address does not match [EMAIL_RE], or the password
    is not 8 to 20 characters long, or differs from its confirmation, or the
    invitation code is not valid, or a local user already has the username
    or the e-mail address, [join] returns [(False, msg)] with the message of
    the first failing check, and the world is the one it started from: no
    request was issued and neither local nor remote state has changed. *)
Theorem join_rejects_invalid_request u p c e code w :
  fullmatch EMAIL_RE e = false \/
  ~ (8 <= String.length p <= 20)%nat \/
  p <> c \/
  (is_invite_valid code (w_db w)).1 = false \/
  (exists usr, usr ∈ db_users (w_db w) /\ (u_username usr = u \/ u_email usr = e)) ->
  exists msg,
    join u p c e code w = (Ok (false, msg), w) /\
    join_checks u p c e code (w_db w) = Some msg /\
    msg ∈ ["Invalid e-mail address."; "Password must be 8–20 characters.";
           "Passwords do not match."; (is_invite_valid code (w_db w)).2;
           "User or e-mail already exists."].
Proof.
  intros Hbad. destruct (join_checks_reject _ _ _ _ _ _ Hbad) as (msg & Hmsg & Hin).
  exists msg. split; [|done]. by rewrite join_after_checks, Hmsg.
Qed.

End Workflow.

Lemma join_rejects_invalid_request_witness :
  exists msg,
    join (env := scripted) "bob" "secret" "secret" "bob@example.org" "INVITE"
      (demo_world (mkScript demo_answers [] []) (demo_db (PInt 7)))
    = (Ok (false, msg), demo_world (mkScript demo_answers [] []) (demo_db (PInt 7))) /\
    join_checks (env := scripted) "bob" "secret" "secret" "bob@example.org" "INVITE"
      (demo_db (PInt 7)) = Some msg /\
    msg ∈ ["Invalid e-mail address."; "Password must be 8–20 characters.";
           "Passwords do not match.";
           (is_invite_valid (Environment := scripted) "INVITE" (demo_db (PInt 7))).2;
           "User or e-mail already exists."].
Proof.
  apply (join_rejects_invalid_request (env := scripted)).
  right; left. simpl. lia.
Defined.

Section Provisioning.
Context `{env : Environment}.

Lemma send_world rq w r w1 :
  send rq w = (r, w1) ->
  w1 = mkWorld (w_out w1) (w_http w ++ [rq]) (w_db w) (w_saved w) (w_log w).
Proof.
  unfold send, mbind, M_bind, http. destruct (serve rq (w_out w)) as [o out'].
  destruct o as [|status body]; simpl.
  - by intros [= <- <-].
  - unfold lift. destruct (raise_for_status _); simpl; by intros [= <- <-].
Qed.

Lemma join_handler_run e w :
  join_handler e w =
  (Ok (false, "An unexpected error occurred during user creation."),
   mkWorld (w_out w) (w_http w) (w_saved w) (w_saved w)
     (w_log w ++ [LogError "Emby join error" e])).
Proof. reflexivity. Qed.

(** C5.  When the request that creates the remote account raises (no
    response, or a 4xx/5xx status), [join] returns [False] with the fixed
    message; the cause only reaches the log; that request is the only one
    issued; the session is rolled back and the committed records, users and
    invitations alike, are those from before the call. *)
Theorem join_create_failure u p c e code w cause w1 :
  join_checks u p c e code (w_db w) = None ->
  client_post "/Users/New" (PDict [("Name", PStr u)]) w = (Raise cause, w1) ->
  join u p c e code w =
  (Ok (false, "An unexpected error occurred during user creation."),
   mkWorld (w_out w1)
     (w_http w ++ [mkRequest POST "/Users/New" (Some (PDict [("Name", PStr u)]))])
     (w_saved w) (w_saved w)
     (w_log w ++ [LogError "Emby join error" cause])).
Proof.
  intros Hchecks Hpost. rewrite join_after_checks, Hchecks.
  unfold try_except, create_user. unfold mbind at 1 2, M_bind at 1 2.
  rewrite Hpost. rewrite join_handler_run.
  apply send_world in Hpost. rewrite Hpost. reflexivity.
Qed.

End Provisioning.

Lemma join_create_failure_witness :
  join_checks (env := scripted) "bob" "password1" "password1" "bob@example.org" "INVITE"
    (demo_db (PInt 7)) = None /\
  join (env := scripted) "bob" "password1" "password1" "bob@example.org" "INVITE"
    (demo_world (mkScript [Response 500 None] [] []) (demo_db (PInt 7))) =
  (Ok (false, "An unexpected error occurred during user creation."),
   mkWorld (env := scripted) (mkScript [] [] [])
     [mkRequest POST "/Users/New" (Some (PDict [("Name", PStr "bob")]))]
     (demo_db (PInt 7)) (demo_db (PInt 7))
     [LogError "Emby join error" (HTTPError 500)]).
Proof.
  split; [reflexivity|].
  apply (join_create_failure (env := scripted) "bob" "password1" "password1"
           "bob@example.org" "INVITE"
           (demo_world (mkScript [Response 500 None] [] []) (demo_db (PInt 7)))
           (HTTPError 500)
           (mkWorld (env := scripted) (mkScript [] [] [])
              [mkRequest POST "/Users/New" (Some (PDict [("Name", PStr "bob")]))]
              (demo_db (PInt 7)) (demo_db (PInt 7)) [])); reflexivity.
Defined.

Section ProvisioningRuns.
Context `{env : Environment}.

Lemma bind_inv {A B} (m : M A) (f : A -> M B) w r w' :
  (m ≫= f) w = (r, w') ->
  (exists e, m w = (Raise e, w') /\ r = Raise e) \/
  (exists a w1, m w = (Ok a, w1) /\ f a w1 = (r, w')).
Proof.
  unfold mbind, M_bind. destruct (m w) as [[a|e] w1]; intros Hr.
  - right. by exists a, w1.
  - left. exists e. by injection Hr as <- <-.
Qed.

Lemma commit_inv w r w' :
  commit w = (r, w') ->
  (r = Ok tt /\ w_db w' = w_db w /\ w_saved w' = w_db w) \/
  (r = Raise DatabaseError /\ w_db w' = w_db w /\ w_saved w' = w_saved w).
Proof.
  unfold commit. destruct (try_commit _ _) as [[] out']; intros [= <- <-]; auto.
Qed.

Lemma join_provision_runs u e code uid w r w' :
  join_provision u e code uid w = (r, w') ->
  (is_ok r = false /\ w_saved w' = w_saved w) \/
  exists i inv expires,
    list_find (fun inv => inv_code inv = code) (db_invitations (w_db w)) = Some (i, inv) /\
    compute_expires (inv_duration inv) = Ok expires /\
    let new_user := mkUser u e "emby-user" uid code expires in
    let db1 := mkDb (db_users (w_db w) ++ [new_user]) (db_invitations (w_db w))
                 (db_libraries (w_db w)) in
    let db2 := mkDb (db_users db1)
                 (<[i := used_invitation inv new_user]> (db_invitations db1))
                 (db_libraries db1) in
    (r = Raise DatabaseError /\ w_saved w' = db1 /\ w_db w' = db2) \/
    ((r = Ok (true, "") \/ r = Raise NotifyError) /\ w_saved w' = db2 /\ w_db w' = db2).
Proof.
  unfold join_provision. intros Hrun.
  apply bind_inv in Hrun as [(e0 & [=] & _) | (found & w1 & [= <- <-] & Hrun)].
  destruct (list_find _ _) as [[i inv]|] eqn:Hfind.
  2:{ apply bind_inv in Hrun as [(e0 & [= <- <-] & ->) | (? & ? & [=] & _)]. by left. }
  apply bind_inv in Hrun as [(e0 & [=] & _) | ([i' inv'] & w1 & [= <- <- <-] & Hrun)].
  apply bind_inv in Hrun as [(e0 & Hs & ->) | (sections & w1 & Hs & Hrun)].
  { destruct (inv_libraries inv); discriminate. }
  assert (w1 = w) as -> by (destruct (inv_libraries inv); by injection Hs).
  clear Hs.
  pose proof (set_specific_folders_keeps_records uid sections w) as [Hdb Hsaved].
  apply bind_inv in Hrun as [(e0 & Hs & ->) | ([] & w1 & Hs & Hrun)];
    rewrite Hs in Hdb, Hsaved; simpl in Hdb, Hsaved.
  { by left. }
  apply bind_inv in Hrun as [(e0 & [= He <-] & ->) | (expires & w2 & [= He <-] & Hrun)].
  { by left. }
  apply bind_inv in Hrun as [(e0 & [=] & _) | ([] & w2 & [= <-] & Hrun)].
  apply bind_inv in Hrun as [(e0 & Hc & ->) | ([] & w3 & Hc & Hrun)];
    apply commit_inv in Hc as [(? & Hdb3 & Hsaved3) | (? & Hdb3 & Hsaved3)];
    simplify_eq; simpl in Hdb3, Hsaved3.
  { left. split; [done|]. congruence. }
  right. exists i, inv, expires. split; [done|]. split; [done|].
  simpl. rewrite Hdb in Hsaved3, Hdb3. unfold mark_invite_used in Hrun.
  apply bind_inv in Hrun as [(e0 & Hm & ->) | ([] & w4 & Hm & Hrun)];
    (apply bind_inv in Hm as [(e1 & [=] & _) | ([] & w5 & [= <-] & Hm)]);
    apply commit_inv in Hm as [(? & Hdb4 & Hsaved4) | (? & Hdb4 & Hsaved4)];
    simplify_eq; simpl in Hdb4, Hsaved4; rewrite ?Hdb3, ?Hsaved3 in Hdb4, Hsaved4.
  { left. split; [done|]. split; [congruence | by rewrite Hdb4, ?Hdb3]. }
  right.
  apply bind_inv in Hrun as [(e0 & Hn & ->) | ([] & w6 & Hn & [= <- <-])];
    unfold send_notification in Hn; destruct (notify _ _ _ _) as [[] out'];
    simplify_eq; simpl; auto.
Qed.

End ProvisioningRuns.

Section WorkflowOutcomes.
Context `{env : Environment}.

Lemma join_after_create u p c e code w uid w1 :
  join_checks u p c e code (w_db w) = None ->
  create_user u p w = (Ok uid, w1) ->
  join u p c e code w = try_except (join_provision u e code uid) join_handler w1.
Proof.
  intros Hchecks Hcreate. rewrite join_after_checks, Hchecks.
  unfold try_except. unfold mbind at 1, M_bind at 1. by rewrite Hcreate.
Qed.

(** C7.  When the remote account has been created and a later step of the
    workflow raises, [join] returns [False] with the fixed message, the
    cause goes to the log, the session is rolled back to the committed
    records, and no request issued by the call is a DELETE: the remote
    account stays. *)
Theorem join_late_failure_keeps_remote_account u p c e code w uid w1 cause w2 :
  join_checks u p c e code (w_db w) = None ->
  create_user u p w = (Ok uid, w1) ->
  join_provision u e code uid w1 = (Raise cause, w2) ->
  let w' := mkWorld (w_out w2) (w_http w2) (w_saved w2) (w_saved w2)
              (w_log w2 ++ [LogError "Emby join error" cause]) in
  join u p c e code w =
    (Ok (false, "An unexpected error occurred during user creation."), w') /\
  w_db w' = w_saved w' /\
  only_issues not_delete w w'.
Proof.
  intros Hchecks Hcreate Hprov w'.
  assert (join u p c e code w =
    (Ok (false, "An unexpected error occurred during user creation."), w')) as Hjoin.
  { rewrite (join_after_create _ _ _ _ _ _ _ _ Hchecks Hcreate).
    unfold try_except. by rewrite Hprov, join_handler_run. }
  split; [done|]. split; [done|].
  pose proof (join_no_delete u p c e code w) as Hframe. by rewrite Hjoin in Hframe.
Qed.

(** C2.  When the account is created and the request that sets the password
    raises, [create_user] logs the error and returns the identifier of the
    new account all the same, [join] goes on with the remaining steps, and
    when these succeed it returns [(True, "")] and the new user record is
    among the committed records. *)
Theorem join_password_failure_not_fatal u p c e code w r w1 user uid cause w2 res w3 :
  join_checks u p c e code (w_db w) = None ->
  client_post "/Users/New" (PDict [("Name", PStr u)]) w = (Ok r, w1) ->
  response_json r = Ok user ->
  str_field user "Id" = Ok uid ->
  client_post ("/Users/" +:+ uid +:+ "/Password")
    (PDict [("NewPw", PStr p); ("CurrentPw", PStr ""); ("ResetPassword", PBool false)])
    w1 = (Raise cause, w2) ->
  let w2' := mkWorld (w_out w2) (w_http w2) (w_db w2) (w_saved w2)
               (w_log w2 ++ [LogError ("Failed to set password for user " +:+ u) cause]) in
  join_provision u e code uid w2' = (Ok res, w3) ->
  create_user u p w = (Ok uid, w2') /\
  join u p c e code w = try_except (join_provision u e code uid) join_handler w2' /\
  join u p c e code w = (Ok (true, ""), w3) /\
  exists expires, mkUser u e "emby-user" uid code expires ∈ db_users (w_saved w3).
Proof.
  intros Hchecks Hnew Hjson Hid Hpw w2' Hprov.
  assert (create_user u p w = (Ok uid, w2')) as Hcreate.
  { unfold create_user. unfold mbind at 1, M_bind at 1. rewrite Hnew.
    unfold mbind at 1, M_bind at 1, lift at 1. rewrite Hjson.
    unfold mbind at 1, M_bind at 1, lift at 1. rewrite Hid.
    unfold mbind at 1, M_bind at 1, try_except. unfold mbind at 1, M_bind at 1.
    by rewrite Hpw. }
  pose proof (join_after_create _ _ _ _ _ _ _ _ Hchecks Hcreate) as Hjoin.
  split; [done|]. split; [done|].
  rewrite Hjoin. unfold try_except. rewrite Hprov.
  apply join_provision_runs in Hprov
    as [[? _] | (i & inv & expires & _ & _ & [(? & _) | ([?|?] & Hsaved & _)])];
    try discriminate.
  simplify_eq. split; [done|]. exists expires. rewrite Hsaved. simpl.
  apply elem_of_app. right. apply list_elem_of_here.
Qed.

(** C9, as the code has it.  After a successful [join] the committed users
    are those of the session followed by the new record, whose expiration
    is [utcnow] plus [int(duration)] days when the invitation's duration is
    truthy (so for every positive number of days) and none when it is
    falsy ([None], zero, the empty string). *)
Theorem join_expiration u p c e code w w' :
  join u p c e code w = (Ok (true, ""), w') ->
  exists i inv uid expires,
    list_find (fun inv => inv_code inv = code) (db_invitations (w_db w)) = Some (i, inv) /\
    db_users (w_saved w') = db_users (w_db w) ++ [mkUser u e "emby-user" uid code expires] /\
    (py_truthy (inv_duration inv) = true ->
       exists days, py_int (inv_duration inv) = Ok days /\
                    expires = Some (utcnow + days * day_us)) /\
    (py_truthy (inv_duration inv) = false -> expires = None) /\
    (forall n, inv_duration inv = PInt n -> 0 < n -> expires = Some (utcnow + n * day_us)).
Proof.
  intros Hjoin. rewrite join_after_checks in Hjoin.
  destruct (join_checks _ _ _ _ _ _); [discriminate|].
  unfold try_except in Hjoin.
  destruct ((create_user u p ≫= join_provision u e code) w) as [[res|cause] w1] eqn:Hrun;
    [|rewrite join_handler_run in Hjoin; discriminate].
  injection Hjoin as -> ->.
  apply bind_inv in Hrun as [(? & _ & [=]) | (uid & w1 & Hcreate & Hprov)].
  pose proof (create_user_keeps_records u p w) as [Hdb _].
  rewrite Hcreate in Hdb. simpl in Hdb.
  apply join_provision_runs in Hprov
    as [[? _] | (i & inv & expires & Hfind & Hexp & [(? & _) | (_ & Hsaved & _)])];
    try discriminate.
  rewrite Hdb in Hfind, Hsaved.
  exists i, inv, uid, expires. split; [done|]. split; [by rewrite Hsaved|].
  assert (py_truthy (inv_duration inv) = true ->
          exists days, py_int (inv_duration inv) = Ok days /\
                       expires = Some (utcnow + days * day_us)) as Htruthy.
  { intros Ht. unfold compute_expires in Hexp. rewrite Ht in Hexp.
    destruct (py_int (inv_duration inv)) as [days|]; [|discriminate]. simpl in Hexp.
    exists days. split; [done|].
    unfold timedelta_days in Hexp. destruct (Z.abs days <=? 999999999); [|discriminate].
    simpl in Hexp. unfold datetime_add in Hexp.
    destruct (_ && _); [|discriminate]. by injection Hexp as <-. }
  split; [done|]. split.
  - intros Hf. unfold compute_expires in Hexp. rewrite Hf in Hexp. by injection Hexp as <-.
  - intros n Hn Hpos. destruct Htruthy as (days & Hdays & ->).
    + rewrite Hn. simpl. apply negb_true_iff, Z.eqb_neq. lia.
    + rewrite Hn in Hdays. by injection Hdays as <-.
Qed.

(** C1, as the code has it.  [join] commits the new user record first
    (line 313) and the consumption of the invitation in a second
    transaction (line 141).  Started from a clean session, it leaves the
    committed records untouched and reports a failure, or it has committed
    the user record alone and reports a failure, or it has committed both;
    it returns [(True, "")] only in the last case. *)
Theorem join_commits_user_then_invitation u p c e code w :
  w_db w = w_saved w ->
  let r := (join u p c e code w).1 in
  let w' := (join u p c e code w).2 in
  (w_saved w' = w_saved w /\ exists msg, r = Ok (false, msg)) \/
  exists i inv uid expires,
    list_find (fun inv => inv_code inv = code) (db_invitations (w_saved w)) = Some (i, inv) /\
    let new_user := mkUser u e "emby-user" uid code expires in
    let db1 := mkDb (db_users (w_saved w) ++ [new_user]) (db_invitations (w_saved w))
                 (db_libraries (w_saved w)) in
    let db2 := mkDb (db_users db1)
                 (<[i := used_invitation inv new_user]> (db_invitations db1))
                 (db_libraries db1) in
    (w_saved w' = db1 /\
     r = Ok (false, "An unexpected error occurred during user creation.")) \/
    (w_saved w' = db2 /\
     (r = Ok (true, "") \/
      r = Ok (false, "An unexpected error occurred during user creation."))).
Proof.
  intros Hclean r w'. subst r w'. rewrite join_after_checks.
  destruct (join_checks _ _ _ _ _ _) as [msg|]; [left; eauto|].
  unfold try_except.
  destruct ((create_user u p ≫= join_provision u e code) w) as [[res|cause] w1] eqn:Hrun;
    [|rewrite join_handler_run]; simpl;
    (apply bind_inv in Hrun as [(? & Hcreate & Hr) | (uid & w0 & Hcreate & Hprov)]);
    pose proof (create_user_keeps_records u p w) as [Hdb Hsaved];
    rewrite Hcreate in Hdb, Hsaved; simpl in Hdb, Hsaved; try discriminate.
  - apply join_provision_runs in Hprov
      as [[? _] | (i & inv & expires & Hfind & _ & [(? & _) | ([?|?] & Hs & _)])];
      try discriminate.
    simplify_eq. right. rewrite Hdb, Hclean in Hfind, Hs.
    exists i, inv, uid, expires. split; [done|]. right. auto.
  - left. split; [congruence | eauto].
  - apply join_provision_runs in Hprov
      as [[_ Hs] | (i & inv & expires & Hfind & _ & [(_ & Hs & _) | (_ & Hs & _)])].
    + left. split; [congruence | eauto].
    + right. rewrite Hdb, Hclean in Hfind, Hs.
      exists i, inv, uid, expires. split; [done|]. left. auto.
    + right. rewrite Hdb, Hclean in Hfind, Hs.
      exists i, inv, uid, expires. split; [done|]. right. auto.
Qed.

End WorkflowOutcomes.

Lemma join_late_failure_keeps_remote_account_witness :
  let w := demo_world (mkScript demo_answers [false] []) (demo_db (PInt 7)) in
  let w1 := (create_user (env := scripted) "bob" "password1" w).2 in
  let w2 := (join_provision (env := scripted) "bob" "bob@example.org" "INVITE" "u1" w1).2 in
  let w' := mkWorld (env := scripted) (w_out w2) (w_http w2) (w_saved w2) (w_saved w2)
              (w_log w2 ++ [LogError "Emby join error" DatabaseError]) in
  join (env := scripted) "bob" "password1" "password1" "bob@example.org" "INVITE" w =
    (Ok (false, "An unexpected error occurred during user creation."), w') /\
  w_db w' = w_saved w' /\
  only_issues not_delete w w'.
Proof.
  intros w w1 w2.
  apply (join_late_failure_keeps_remote_account (env := scripted)
           "bob" "password1" "password1" "bob@example.org" "INVITE"
           w "u1" w1 DatabaseError w2); vm_compute; reflexivity.
Defined.

Lemma join_password_failure_not_fatal_witness :
  let w := demo_world
             (mkScript [demo_created; Response 500 None; demo_folders; demo_account;
                        Response 204 None] [] [])
             (demo_db (PInt 7)) in
  let w2' := (create_user (env := scripted) "bob" "password1" w).2 in
  let w3 := (join_provision (env := scripted) "bob" "bob@example.org" "INVITE" "u1" w2').2 in
  create_user (env := scripted) "bob" "password1" w = (Ok "u1", w2') /\
  join (env := scripted) "bob" "password1" "password1" "bob@example.org" "INVITE" w =
    try_except (join_provision "bob" "bob@example.org" "INVITE" "u1") join_handler w2' /\
  join (env := scripted) "bob" "password1" "password1" "bob@example.org" "INVITE" w =
    (Ok (true, ""), w3) /\
  exists expires,
    mkUser "bob" "bob@example.org" "emby-user" "u1" "INVITE" expires ∈ db_users (w_saved w3).
Proof.
  intros w w2' w3.
  apply (join_password_failure_not_fatal (env := scripted)
           "bob" "password1" "password1" "bob@example.org" "INVITE" w
           (mkResponse 200 (Some (PDict [("Id", PStr "u1"); ("Name", PStr "bob")])))
           (client_post (env := scripted) "/Users/New" (PDict [("Name", PStr "bob")]) w).2
           (PDict [("Id", PStr "u1"); ("Name", PStr "bob")])
           "u1" (HTTPError 500)
           (mkWorld (env := scripted) (w_out w2') (w_http w2') (w_db w2') (w_saved w2') [])
           (true, "") w3); vm_compute; reflexivity.
Defined.

Lemma join_expiration_witness :
  exists i inv uid expires,
    list_find (fun inv => inv_code inv = "INVITE") (db_invitations (demo_db (PInt 7)))
      = Some (i, inv) /\
    db_users (w_saved
       (join (env := scripted) "bob" "password1" "password1" "bob@example.org" "INVITE"
          (demo_world (mkScript demo_answers [] []) (demo_db (PInt 7)))).2) =
      db_users (demo_db (PInt 7))
      ++ [mkUser "bob" "bob@example.org" "emby-user" uid "INVITE" expires] /\
    (py_truthy (inv_duration inv) = true ->
       exists days, py_int (inv_duration inv) = Ok days /\
                    expires = Some (utcnow (Environment := scripted) + days * day_us)) /\
    (py_truthy (inv_duration inv) = false -> expires = None) /\
    (forall n, inv_duration inv = PInt n -> 0 < n ->
       expires = Some (utcnow (Environment := scripted) + n * day_us)).
Proof.
  apply (join_expiration (env := scripted)
           "bob" "password1" "password1" "bob@example.org" "INVITE"
           (demo_world (mkScript demo_answers [] []) (demo_db (PInt 7)))).
  vm_compute. reflexivity.
Defined.

(** C9 as stated fails: an invitation whose duration is [-1] is not of
    positive duration, and the record that a successful [join] creates
    expires one day before [utcnow] instead of never. *)
Lemma join_expiration_negative_duration :
  let w := demo_world (mkScript demo_answers [] []) (demo_db (PInt (-1))) in
  let run := join (env := scripted) "bob" "password1" "password1" "bob@example.org" "INVITE" w in
  inv_duration <$> db_invitations (w_db w) = [PInt (-1)] /\
  run.1 = Ok (true, "") /\
  db_users (w_saved run.2) =
    [mkUser "bob" "bob@example.org" "emby-user" "u1" "INVITE"
       (Some (utcnow (Environment := scripted) - day_us))].
Proof. vm_compute. done. Qed.

Lemma join_commits_user_then_invitation_witness :
  let w := demo_world (mkScript demo_answers [] []) (demo_db (PInt 7)) in
  let r := (join (env := scripted) "bob" "password1" "password1" "bob@example.org" "INVITE" w).1 in
  let w' := (join (env := scripted) "bob" "password1" "password1" "bob@example.org" "INVITE" w).2 in
  (w_saved w' = w_saved w /\ exists msg, r = Ok (false, msg)) \/
  exists i inv uid expires,
    list_find (fun inv => inv_code inv = "INVITE") (db_invitations (w_saved w)) = Some (i, inv) /\
    let new_user := mkUser "bob" "bob@example.org" "emby-user" uid "INVITE" expires in
    let db1 := mkDb (db_users (w_saved w) ++ [new_user]) (db_invitations (w_saved w))
                 (db_libraries (w_saved w)) in
    let db2 := mkDb (db_users db1)
                 (<[i := used_invitation (env := scripted) inv new_user]> (db_invitations db1))
                 (db_libraries db1) in
    (w_saved w' = db1 /\
     r = Ok (false, "An unexpected error occurred during user creation.")) \/
    (w_saved w' = db2 /\
     (r = Ok (true, "") \/
      r = Ok (false, "An unexpected error occurred during user creation."))).
Proof.
  intros w.
  apply (join_commits_user_then_invitation (env := scripted)
           "bob" "password1" "password1" "bob@example.org" "INVITE" w).
  reflexivity.
Defined.

(** C1 as stated fails: when the persistence engine accepts the first
    commit and refuses the second, the user record is committed and the
    invitation is left as it was, unused. *)
Lemma join_second_commit_refused :
  let w := demo_world (mkScript demo_answers [true; false] []) (demo_db (PInt 7)) in
  let run := join (env := scripted) "bob" "password1" "password1" "bob@example.org" "INVITE" w in
  run.1 = Ok (false, "An unexpected error occurred during user creation.") /\
  db_users (w_saved w) = [] /\
  db_users (w_saved run.2) =
    [mkUser "bob" "bob@example.org" "emby-user" "u1" "INVITE"
       (Some (utcnow (Environment := scripted) + 7 * day_us))] /\
  db_invitations (w_saved run.2) = db_invitations (w_saved w) /\
  inv_used <$> db_invitations (w_saved run.2) = [false].
Proof. vm_compute. done. Qed.

(** ** Dictionaries *)

Section DictFacts.
Context {V : Type}.
Implicit Types (d : list (string * V)) (k : string) (v : V).

Lemma dict_get_set_eq k v d : dict_get k (dict_set k v d) = Some v.
Proof.
  induction d as [|[k' v'] d IH]; simpl.
  - by rewrite decide_True.
  - destruct (decide (k = k')); simpl.
    + by rewrite decide_True.
    + by rewrite decide_False.
Qed.

Lemma dict_get_set_ne k k' v d : k <> k' -> dict_get k' (dict_set k v d) = dict_get k' d.
Proof.
  intros Hne. induction d as [|[k0 v0] d IH]; simpl.
  - by rewrite decide_False.
  - destruct (decide (k = k0)) as [->|]; simpl.
    + by rewrite !decide_False.
    + destruct (decide (k' = k0)); [done | exact IH].
Qed.

Lemma dict_get_Some_elem k v d : dict_get k d = Some v -> (k, v) ∈ d.
Proof.
  induction d as [|[k' v'] d IH]; simpl; [done|].
  destruct (decide (k = k')) as [->|].
  - intros [= ->]. apply list_elem_of_here.
  - intros Hget. apply list_elem_of_further. by apply IH.
Qed.

Lemma dict_get_None_keys k d : dict_get k d = None <-> k ∉ dict_keys d.
Proof.
  unfold dict_keys. induction d as [|[k' v'] d IH]; simpl.
  - split; [intros _; apply not_elem_of_nil | done].
  - rewrite not_elem_of_cons. destruct (decide (k = k')) as [->|]; simpl.
    + split; [done | intros [? _]; done].
    + rewrite IH. tauto.
Qed.

Lemma dict_mem_keys k d : dict_mem k d = true <-> k ∈ dict_keys d.
Proof.
  unfold dict_mem. destruct (dict_get k d) eqn:Hget.
  - split; [intros _ | done].
    destruct (decide (k ∈ dict_keys d)) as [|Hn]; [done|].
    apply dict_get_None_keys in Hn. congruence.
  - apply dict_get_None_keys in Hget. split; [done | intros; contradiction].
Qed.

(** A dictionary built from pairs answers with a pair of the list, and
    knows every key of the list. *)
Lemma dict_of_pairs_get (pairs : list (string * V)) k :
  match dict_get k (dict_of_pairs pairs) with
  | Some v => (k, v) ∈ pairs
  | None => k ∉ pairs.*1
  end.
Proof.
  unfold dict_of_pairs.
  cut (forall d0,
         match dict_get k (foldl (fun d kv => dict_set kv.1 kv.2 d) d0 pairs) with
         | Some v => (k, v) ∈ pairs \/ dict_get k d0 = Some v
         | None => (k ∉ pairs.*1) /\ dict_get k d0 = None
         end).
  { intros Hgen. specialize (Hgen []). simpl in Hgen.
    destruct (dict_get k _); [by destruct Hgen | by destruct Hgen]. }
  induction pairs as [|[k' v'] pairs IH]; intros d0; simpl.
  - destruct (dict_get k d0); [by right | split; [apply not_elem_of_nil | done]].
  - specialize (IH (dict_set k' v' d0)).
    destruct (dict_get k (foldl _ _ pairs)) as [v|].
    + destruct IH as [Hin | Hget]; [left; by apply list_elem_of_further|].
      destruct (decide (k' = k)) as [->|Hne].
      * rewrite dict_get_set_eq in Hget. injection Hget as ->.
        left. apply list_elem_of_here.
      * rewrite dict_get_set_ne in Hget by done. by right.
    + destruct IH as [Hnin Hget].
      destruct (decide (k' = k)) as [->|Hne].
      * by rewrite dict_get_set_eq in Hget.
      * rewrite dict_get_set_ne in Hget by done.
        split; [|done]. rewrite not_elem_of_cons. split; [done | exact Hnin].
Qed.

Lemma dict_of_pairs_mem (pairs : list (string * V)) k :
  dict_mem k (dict_of_pairs pairs) = true <-> k ∈ pairs.*1.
Proof.
  unfold dict_mem. pose proof (dict_of_pairs_get pairs k) as Hget.
  destruct (dict_get k (dict_of_pairs pairs)) as [v|].
  - split; [intros _ | done]. apply list_elem_of_fmap. by exists (k, v).
  - split; [done | intros; contradiction].
Qed.

End DictFacts.

(** ** Library resolution *)

Section Resolution.
Context `{env : Environment}.

Lemma collect_folders_run d1 d2 names acc w :
  exists warnings,
    collect_folders d1 d2 names acc w =
    (Ok (acc ++ omap (match_folder d1 d2) names),
     mkWorld (w_out w) (w_http w) (w_db w) (w_saved w) (w_log w ++ warnings)).
Proof.
  revert acc w. induction names as [|name names IH]; intros acc w; simpl.
  - exists []. rewrite !app_nil_r. by destruct w.
  - unfold match_folder at 1. destruct (dict_mem name d1).
    + destruct (IH (acc ++ [name]) w) as [ws ->]. exists ws. by rewrite <- app_assoc.
    + destruct (dict_get name d2) as [folder_id|].
      * destruct (IH (acc ++ [folder_id]) w) as [ws ->]. exists ws. by rewrite <- app_assoc.
      * unfold mbind, M_bind, log_warning.
        destruct (IH acc (mkWorld (w_out w) (w_http w) (w_db w) (w_saved w)
                   (w_log w ++ [LogWarning ("Could not find library matching: " +:+ name)])))
          as [ws ->].
        simpl. eexists. by rewrite <- app_assoc.
Qed.

End Resolution.

Section ResolutionFacts.
Implicit Types (pairs : list (string * string)) (ref : string).

Lemma match_folder_id pairs ref :
  ref ∈ pairs.*1 ->
  match_folder (dict_of_pairs pairs) (dict_of_pairs (prod_swap <$> pairs)) ref = Some ref.
Proof. intros Hin. unfold match_folder. by apply dict_of_pairs_mem in Hin as ->. Qed.

Lemma match_folder_name pairs ref :
  ref ∉ pairs.*1 -> ref ∈ pairs.*2 ->
  exists x,
    match_folder (dict_of_pairs pairs) (dict_of_pairs (prod_swap <$> pairs)) ref = Some x /\
    (x, ref) ∈ pairs.
Proof.
  intros Hnid Hname. unfold match_folder.
  destruct (dict_mem ref (dict_of_pairs pairs)) eqn:Hmem.
  { apply dict_of_pairs_mem in Hmem. contradiction. }
  pose proof (dict_of_pairs_get (prod_swap <$> pairs) ref) as Hget.
  destruct (dict_get ref _) as [x|].
  - exists x. split; [done|].
    apply list_elem_of_fmap in Hget as ([a b] & [= <- <-] & Hin). done.
  - exfalso. apply Hget. apply list_elem_of_fmap in Hname as ([a b] & -> & Hin).
    apply list_elem_of_fmap. exists (b, a). split; [done|].
    apply list_elem_of_fmap. by exists (a, b).
Qed.

Lemma match_folder_none pairs ref :
  ref ∉ pairs.*1 -> ref ∉ pairs.*2 ->
  match_folder (dict_of_pairs pairs) (dict_of_pairs (prod_swap <$> pairs)) ref = None.
Proof.
  intros Hnid Hnname. unfold match_folder.
  destruct (dict_mem ref (dict_of_pairs pairs)) eqn:Hmem.
  { apply dict_of_pairs_mem in Hmem. contradiction. }
  pose proof (dict_of_pairs_get (prod_swap <$> pairs) ref) as Hget.
  destruct (dict_get ref _) as [x|]; [|done].
  exfalso. apply Hnname.
  apply list_elem_of_fmap in Hget as ([a b] & [= <- <-] & Hin).
  apply list_elem_of_fmap. by exists (x, ref).
Qed.

Lemma match_folder_sound pairs ref x :
  match_folder (dict_of_pairs pairs) (dict_of_pairs (prod_swap <$> pairs)) ref = Some x ->
  x ∈ pairs.*1.
Proof.
  unfold match_folder. destruct (dict_mem ref (dict_of_pairs pairs)) eqn:Hmem.
  - intros [= <-]. by apply dict_of_pairs_mem.
  - intros Hget. pose proof (dict_of_pairs_get (prod_swap <$> pairs) ref) as Hin.
    rewrite Hget in Hin.
    apply list_elem_of_fmap in Hin as ([a b] & [= <- <-] & Hin).
    apply list_elem_of_fmap. by exists (x, ref).
Qed.

Lemma elem_of_resolve names pairs x :
  x ∈ resolve names pairs <->
  x <> "" /\ exists ref, ref ∈ names /\
    match_folder (dict_of_pairs pairs) (dict_of_pairs (prod_swap <$> pairs)) ref = Some x.
Proof.
  unfold resolve. rewrite elem_of_list_to_set, list_elem_of_filter, list_elem_of_omap.
  done.
Qed.

End ResolutionFacts.

Section ResolutionTheorem.
Context `{env : Environment}.

(** C4, as the code has it.  For every catalog and every list of
    references: the resolved set holds only identifiers of the catalog, and
    only non-empty ones; its listing has no duplicates; a reference that is
    an identifier of the catalog resolves to itself; a reference that is
    only a name of the catalog resolves to an identifier that carries that
    name; in both cases the identifier is in the result unless it is the
    empty string, which line 204 filters out; a reference that is neither
    contributes nothing, and the loop never fails. *)
Theorem resolve_correct (names : list string) (pairs : list (string * string)) :
  let id_to_name := dict_of_pairs pairs in
  let name_to_id := dict_of_pairs (prod_swap <$> pairs) in
  let found := resolve names pairs in
  (forall x, x ∈ found -> x ∈ pairs.*1 /\ x <> "") /\
  NoDup (elements found) /\
  (forall ref, ref ∈ names -> ref ∈ pairs.*1 ->
     match_folder id_to_name name_to_id ref = Some ref /\ (ref <> "" -> ref ∈ found)) /\
  (forall ref, ref ∈ names -> ref ∉ pairs.*1 -> ref ∈ pairs.*2 ->
     exists x, match_folder id_to_name name_to_id ref = Some x /\
               (x, ref) ∈ pairs /\ (x <> "" -> x ∈ found)) /\
  (forall ref, ref ∉ pairs.*1 -> ref ∉ pairs.*2 ->
     match_folder id_to_name name_to_id ref = None /\
     resolve (ref :: names) pairs = found) /\
  (forall w, exists folder_ids w',
     collect_folders id_to_name name_to_id names [] w = (Ok folder_ids, w') /\
     distinct_ids folder_ids = elements found).
Proof.
  intros id_to_name name_to_id found. repeat split.
  - apply elem_of_resolve in H as (_ & ref & _ & Hm). by apply match_folder_sound in Hm.
  - by apply elem_of_resolve in H as [? _].
  - apply NoDup_elements.
  - by apply match_folder_id.
  - intros Hne. apply elem_of_resolve. split; [done|]. exists ref.
    split; [done | by apply match_folder_id].
  - intros ref Hin Hnid Hname.
    destruct (match_folder_name pairs ref Hnid Hname) as (x & Hm & Hx).
    exists x. repeat split; [done..|].
    intros Hne. apply elem_of_resolve. split; [done|]. by exists ref.
  - by apply match_folder_none.
  - unfold found, resolve. cbn [omap list_omap].
    by rewrite (match_folder_none pairs ref).
  - intros w. destruct (collect_folders_run id_to_name name_to_id names [] w) as [ws Hrun].
    eexists _, _. split; [exact Hrun | done].
Qed.

End ResolutionTheorem.

(** C4 as stated fails: in a catalog whose only library has the empty
    identifier, the reference "Films" is exactly the name of that library,
    and the resolved set is empty. *)
Lemma resolve_drops_empty_identifier :
  "Films" ∈ [("", "Films")].*2 /\
  match_folder (dict_of_pairs [("", "Films")])
    (dict_of_pairs (prod_swap <$> [("", "Films")])) "Films" = Some "" /\
  elements (resolve ["Films"] [("", "Films")]) = [] /\
  distinct_ids [""] = [].
Proof. split; [apply list_elem_of_here | by vm_compute]. Qed.

(** ** The policy sent by [set_specific_folders] *)

Section Policy.
Context `{env : Environment}.

Lemma send_ok rq w status body out' :
  serve rq (w_out w) = (Response status body, out') ->
  (400 <=? status) && (status <? 600) = false ->
  send rq w =
  (Ok (mkResponse status body),
   mkWorld out' (w_http w ++ [rq]) (w_db w) (w_saved w) (w_log w)).
Proof.
  intros Hserve Hstatus. unfold send, mbind, M_bind, http. rewrite Hserve.
  unfold lift, raise_for_status. simpl. by rewrite Hstatus.
Qed.

Lemma elements_not_truthy (found : gset string) :
  negb (py_truthy (PList (PStr <$> elements found))) = bool_decide (found = ∅).
Proof.
  destruct (elements found) as [|x l] eqn:Hel; simpl.
  - apply elements_empty_inv in Hel. apply leibniz_equiv in Hel.
    by rewrite bool_decide_eq_true_2.
  - rewrite bool_decide_eq_false_2; [done|]. intros ->. by rewrite elements_empty in Hel.
Qed.

Lemma apply_policy_requests uid folder_ids w st acct out' policy :
  serve (mkRequest GET ("/Users/" +:+ uid) None) (w_out w) = (Response st (Some acct), out') ->
  (400 <=? st) && (st <? 600) = false ->
  py_getitem acct "Policy" = Ok (PDict policy) ->
  w_http
    ((get_user uid ≫= fun account =>
      lift (py_getitem account "Policy") ≫= fun current =>
      lift (match current with PDict d => Ok d | _ => Raise AttributeError end) ≫= fun current =>
      set_policy uid
        (PDict (dict_update (dict_update current (policy_patch folder_ids))
                  playback_permissions))) w).2 =
  w_http w ++
    [mkRequest GET ("/Users/" +:+ uid) None;
     mkRequest POST ("/Users/" +:+ uid +:+ "/Policy")
       (Some (PDict (dict_update (dict_update policy (policy_patch folder_ids))
                       playback_permissions)))].
Proof.
  intros Haccount Hst Hpolicy.
  unfold mbind at 1, M_bind at 1. unfold get_user, client_get.
  unfold mbind at 1, M_bind at 1. rewrite (send_ok _ _ _ _ _ Haccount Hst).
  unfold lift at 1, response_json at 1. cbn [body].
  unfold mbind at 1, M_bind at 1, lift at 1. rewrite Hpolicy.
  unfold mbind at 1, M_bind at 1, lift at 1.
  unfold set_policy, client_post, send, http, mbind, M_bind. cbn [w_out w_http].
  destruct (serve _ out') as [o out2]. rewrite <- app_assoc.
  destruct o as [|status b]; [done|].
  unfold lift. by destruct (raise_for_status _).
Qed.

(** C3.  When the two reads succeed (the media folders, then the account
    with its policy), [set_specific_folders] issues three requests, the
    last one a POST of the policy to /Users/{id}/Policy, and the policy it
    sends has EnableAllFolders equal to the emptiness of the resolved set,
    EnabledFolders equal to the listing of that set, the six playback
    flags true, and every other field as it was fetched. *)
Theorem set_specific_folders_policy uid names w st1 v out1 items pairs st2 acct out2 policy :
  serve (mkRequest GET "/Library/MediaFolders" None) (w_out w)
    = (Response st1 (Some (PDict v)), out1) ->
  (400 <=? st1) && (st1 <? 600) = false ->
  py_iter (default (PList []) (dict_get "Items" v)) = Ok items ->
  folder_pairs items = Ok pairs ->
  serve (mkRequest GET ("/Users/" +:+ uid) None) out1 = (Response st2 (Some acct), out2) ->
  (400 <=? st2) && (st2 <? 600) = false ->
  py_getitem acct "Policy" = Ok (PDict policy) ->
  let found := resolve names pairs in
  exists sent,
    w_http (set_specific_folders uid names w).2 =
      w_http w ++ [mkRequest GET "/Library/MediaFolders" None;
                   mkRequest GET ("/Users/" +:+ uid) None;
                   mkRequest POST ("/Users/" +:+ uid +:+ "/Policy") (Some (PDict sent))] /\
    dict_get "EnableAllFolders" sent = Some (PBool (bool_decide (found = ∅))) /\
    dict_get "EnabledFolders" sent = Some (PList (PStr <$> elements found)) /\
    Forall (fun flag => dict_get flag sent = Some (PBool true))
      ["EnableMediaPlayback"; "EnableAudioPlaybackTranscoding";
       "EnableVideoPlaybackTranscoding"; "EnablePlaybackRemuxing";
       "EnableContentDownloading"; "EnableRemoteAccess"] /\
    (forall k, k ∉ ["EnableAllFolders"; "EnabledFolders"; "EnableMediaPlayback";
                    "EnableAudioPlaybackTranscoding"; "EnableVideoPlaybackTranscoding";
                    "EnablePlaybackRemuxing"; "EnableContentDownloading";
                    "EnableRemoteAccess"] ->
       dict_get k sent = dict_get k policy).
Proof.
  intros Hfolders Hst1 Hiter Hpairs Haccount Hst2 Hpolicy found.
  pose (folder_ids := elements found).
  exists (dict_update (dict_update policy (policy_patch folder_ids)) playback_permissions).
  split.
  - unfold set_specific_folders, client_get.
    unfold mbind at 1, M_bind at 1. rewrite (send_ok _ _ _ _ _ Hfolders Hst1).
    unfold mbind at 1, M_bind at 1, lift at 1, response_json at 1. simpl body.
    unfold mbind at 1, M_bind at 1, lift at 1.
    unfold mbind at 1, M_bind at 1, lift at 1. rewrite Hiter.
    unfold mbind at 1, M_bind at 1, lift at 1. rewrite Hpairs.
    unfold mbind at 1, M_bind at 1.
    destruct (collect_folders_run (dict_of_pairs pairs) (dict_of_pairs (prod_swap <$> pairs))
                names [] (mkWorld out1
                  (w_http w ++ [mkRequest GET "/Library/MediaFolders" None])
                  (w_db w) (w_saved w) (w_log w))) as [ws ->].
    simpl app. fold (resolve names pairs). fold found.
    change (distinct_ids (omap _ names)) with folder_ids.
    cbn [w_out w_http w_db w_saved w_log].
    destruct (py_truthy (PList (PStr <$> folder_ids)));
      unfold mbind at 1, M_bind at 1; [unfold mret at 1, M_ret at 1 | unfold log_warning at 1];
      cbn [w_out w_http w_db w_saved w_log];
      (erewrite (apply_policy_requests uid folder_ids _ st2 acct out2 policy);
         [| exact Haccount | exact Hst2 | exact Hpolicy]);
      cbn [w_http]; by rewrite <- app_assoc.
  - subst folder_ids. unfold dict_update, policy_patch, playback_permissions.
    cbn [foldl fst snd].
    split; [|split; [|split]].
    + rewrite !dict_get_set_ne by done.
      rewrite dict_get_set_eq. by rewrite elements_not_truthy.
    + rewrite !dict_get_set_ne by done. by rewrite dict_get_set_eq.
    + repeat constructor;
        repeat first [rewrite dict_get_set_eq; reflexivity | rewrite dict_get_set_ne by done].
    + intros k Hk. repeat (apply not_elem_of_cons in Hk as [? Hk]).
      by rewrite !dict_get_set_ne by done.
Qed.
End Policy.

Lemma set_specific_folders_policy_witness :
  let w := demo_world (mkScript [demo_folders; demo_account; Response 204 None] [] [])
             (demo_db (PInt 7)) in
  let found := resolve ["Shows"; "1"; "nowhere"; "1"] [("1", "Movies"); ("2", "Shows")] in
  exists sent,
    w_http (set_specific_folders (env := scripted) "u1" ["Shows"; "1"; "nowhere"; "1"] w).2 =
      w_http w ++ [mkRequest GET "/Library/MediaFolders" None;
                   mkRequest GET ("/Users/" +:+ "u1") None;
                   mkRequest POST ("/Users/" +:+ "u1" +:+ "/Policy") (Some (PDict sent))] /\
    dict_get "EnableAllFolders" sent = Some (PBool (bool_decide (found = ∅))) /\
    dict_get "EnabledFolders" sent = Some (PList (PStr <$> elements found)) /\
    Forall (fun flag => dict_get flag sent = Some (PBool true))
      ["EnableMediaPlayback"; "EnableAudioPlaybackTranscoding";
       "EnableVideoPlaybackTranscoding"; "EnablePlaybackRemuxing";
       "EnableContentDownloading"; "EnableRemoteAccess"] /\
    (forall k, k ∉ ["EnableAllFolders"; "EnabledFolders"; "EnableMediaPlayback";
                    "EnableAudioPlaybackTranscoding"; "EnableVideoPlaybackTranscoding";
                    "EnablePlaybackRemuxing"; "EnableContentDownloading";
                    "EnableRemoteAccess"] ->
       dict_get k sent = dict_get k
         [("IsAdministrator", PBool false); ("EnableMediaPlayback", PBool false);
          ("EnableAllFolders", PBool true)]).
Proof.
  intros w.
  apply (set_specific_folders_policy (env := scripted) "u1" ["Shows"; "1"; "nowhere"; "1"] w
           200
           [("Items", PList [PDict [("Id", PStr "1"); ("Name", PStr "Movies")];
                             PDict [("Id", PStr "2"); ("Name", PStr "Shows")]])]
           (mkScript [demo_account; Response 204 None] [] [])
           [PDict [("Id", PStr "1"); ("Name", PStr "Movies")];
            PDict [("Id", PStr "2"); ("Name", PStr "Shows")]]
           [("1", "Movies"); ("2", "Shows")]
           200
           (PDict [("Name", PStr "bob");
                   ("Policy", PDict [("IsAdministrator", PBool false);
                                     ("EnableMediaPlayback", PBool false);
                                     ("EnableAllFolders", PBool true)])])
           (mkScript [Response 204 None] [] [])
           [("IsAdministrator", PBool false); ("EnableMediaPlayback", PBool false);
            ("EnableAllFolders", PBool true)]); reflexivity.
Defined.

(** ** Directory sync *)

Section SyncLists.

Lemma remove_first_app_notin (u : User) pre post :
  u ∉ pre -> remove_first u (pre ++ u :: post) = pre ++ post.
Proof.
  induction pre as [|x pre IH]; intros Hnin; simpl.
  - by rewrite decide_True.
  - apply not_elem_of_cons in Hnin as [Hne Hnin].
    rewrite decide_False by done. by rewrite IH.
Qed.

Lemma drop_orphans_filter {V} (emby_users : list (string * V)) pre users :
  (forall u, u ∈ pre -> dict_mem (u_token u) emby_users = true) ->
  foldl (drop_orphan emby_users) (pre ++ users) users =
  pre ++ filter (fun u => dict_mem (u_token u) emby_users = true) users.
Proof.
  revert pre. induction users as [|x users IH]; intros pre Hpre; simpl; [done|].
  unfold drop_orphan at 2. destruct (dict_mem (u_token x) emby_users) eqn:Hx.
  - rewrite filter_cons_True by done.
    rewrite (cons_middle x pre users), app_assoc. rewrite IH.
    + by rewrite <- app_assoc.
    + intros u [Hu | ->%list_elem_of_singleton]%elem_of_app; auto.
  - rewrite filter_cons_False by (by rewrite Hx).
    rewrite remove_first_app_notin; [by apply IH|].
    intros Hin. apply Hpre in Hin. congruence.
Qed.

Lemma add_missing_fold old l us1 :
  fold_result add_missing old l = Ok us1 ->
  (exists news, us1 = old ++ news /\
     forall n, n ∈ news ->
       exists a name, a ∈ l /\ str_field a "Id" = Ok (u_token n) /\
         str_field a "Name" = Ok name /\ n = placeholder (u_token n) name /\
         forall u, u ∈ old -> u_token u <> u_token n) /\
  (forall a, a ∈ l -> exists token, str_field a "Id" = Ok token /\
     exists u, u ∈ us1 /\ u_token u = token).
Proof.
  revert old. induction l as [|a l IH]; intros old; simpl.
  - intros [= <-]. split.
    + exists []. split; [by rewrite app_nil_r|]. intros n Hn. by apply elem_of_nil in Hn.
    + intros a Ha. by apply elem_of_nil in Ha.
  - cbn [fold_result]. unfold mbind at 1, result_bind at 1.
    destruct (add_missing old a) as [us|] eqn:Hstep; [|done].
    intros Hfold. destruct (IH _ Hfold) as [(news & -> & Hnews) Hall].
    unfold add_missing, mbind, result_bind in Hstep.
    destruct (str_field a "Id") as [token|] eqn:Hid; [|done].
    destruct (List.find _ old) as [u0|] eqn:Hfind.
    + injection Hstep as <-. split.
      * exists news. split; [done|]. intros n Hn.
        destruct (Hnews n Hn) as (a' & name & Ha' & ?). exists a', name.
        split; [by apply list_elem_of_further | done].
      * intros a' [->|Ha']%elem_of_cons; [|by apply Hall].
        exists token. split; [done|]. apply find_some in Hfind as [Hin Htok].
        apply bool_decide_eq_true in Htok. exists u0. split; [|done].
        apply elem_of_app. left. by apply list_elem_of_In.
    + destruct (str_field a "Name") as [name|] eqn:Hname; [|done].
      injection Hstep as <-. split.
      * exists (placeholder token name :: news). split; [by rewrite <- app_assoc|].
        intros n [->|Hn]%elem_of_cons.
        -- exists a, name. simpl. repeat split; [apply list_elem_of_here | done..|].
           intros u Hu Heq. apply list_elem_of_In in Hu.
           eapply find_none in Hfind; [|exact Hu].
           apply bool_decide_eq_false in Hfind. done.
        -- destruct (Hnews n Hn) as (a' & name' & Ha' & ? & ? & ? & Hold).
           exists a', name'. repeat split; [by apply list_elem_of_further | done..|].
           intros u Hu. apply Hold. apply elem_of_app. by left.
      * intros a' [->|Ha']%elem_of_cons; [|by apply Hall].
        exists token. split; [done|]. exists (placeholder token name). split; [|done].
        rewrite <- app_assoc. apply elem_of_app. right. apply list_elem_of_here.
Qed.

End SyncLists.

Section SyncDict.

Lemma elem_of_dict_set {V} k (v : V) d k' v' :
  (k', v') ∈ dict_set k v d -> (k', v') = (k, v) \/ (k', v') ∈ d.
Proof.
  induction d as [|[k0 v0] d IH]; simpl.
  - intros ->%list_elem_of_singleton. by left.
  - destruct (decide (k = k0)) as [->|].
    + intros [->|Hin]%elem_of_cons; [by left|]. right. by apply list_elem_of_further.
    + intros [->|Hin]%elem_of_cons; [right; apply list_elem_of_here|].
      destruct (IH Hin); [by left|]. right. by apply list_elem_of_further.
Qed.

Lemma dict_mem_set_eq {V} k (v : V) d : dict_mem k (dict_set k v d) = true.
Proof. unfold dict_mem. by rewrite dict_get_set_eq. Qed.

Lemma dict_mem_set_mono {V} k (v : V) d k' :
  dict_mem k' d = true -> dict_mem k' (dict_set k v d) = true.
Proof.
  intros Hmem. destruct (decide (k = k')) as [->|Hne]; [apply dict_mem_set_eq|].
  unfold dict_mem. by rewrite dict_get_set_ne.
Qed.

Lemma accounts_by_id_fold d0 l d :
  fold_result (fun d u => uid ← str_field u "Id"; Ok (dict_set uid u d)) d0 l = Ok d ->
  (forall k a, (k, a) ∈ d -> (k, a) ∈ d0 \/ (a ∈ l /\ str_field a "Id" = Ok k)) /\
  (forall a, a ∈ l -> exists token, str_field a "Id" = Ok token /\ dict_mem token d = true) /\
  (forall k, dict_mem k d0 = true -> dict_mem k d = true).
Proof.
  revert d0. induction l as [|a l IH]; intros d0.
  - intros [= <-]. repeat split; [by left | | done].
    intros a Ha. by apply elem_of_nil in Ha.
  - cbn [fold_result]. unfold mbind at 1 2, result_bind at 1 2.
    destruct (str_field a "Id") as [token|] eqn:Hid; [|done].
    intros Hfold. destruct (IH _ Hfold) as (Hin & Hall & Hmono). repeat split.
    + intros k a' Hk. destruct (Hin k a' Hk) as [Hset | [Ha' Hk']].
      * apply elem_of_dict_set in Hset as [[= -> ->] | Hd0]; [|by left].
        right. split; [apply list_elem_of_here | done].
      * right. split; [by apply list_elem_of_further | done].
    + intros a' [->|Ha']%elem_of_cons; [|by apply Hall].
      exists token. split; [done|]. apply Hmono, dict_mem_set_eq.
    + intros k Hk. by apply Hmono, dict_mem_set_mono.
Qed.

(** The dictionary of the fetched accounts: its keys are the identifiers
    of the accounts, and each value is an account filed under its own
    identifier. *)
Lemma accounts_by_id_spec accounts emby_users :
  accounts_by_id accounts = Ok emby_users ->
  (forall k, dict_mem k emby_users = true <->
             exists a, a ∈ accounts /\ str_field a "Id" = Ok k) /\
  (forall a, a ∈ dict_values emby_users ->
             a ∈ accounts /\ exists k, str_field a "Id" = Ok k /\ dict_mem k emby_users = true) /\
  (forall k a, (k, a) ∈ emby_users -> str_field a "Id" = Ok k).
Proof.
  intros Hfold. apply accounts_by_id_fold in Hfold as (Hin & Hall & _). split; [|split].
  - intros k. split.
    + unfold dict_mem. destruct (dict_get k emby_users) as [a|] eqn:Hget; [|done].
      intros _. apply dict_get_Some_elem in Hget.
      destruct (Hin k a Hget) as [Hnil | [Ha Hk]]; [by apply elem_of_nil in Hnil|].
      by exists a.
    + intros (a & Ha & Hk). destruct (Hall a Ha) as (token & Htok & Hmem). congruence.
  - intros a Ha. unfold dict_values in Ha.
    apply list_elem_of_fmap in Ha as ([k a'] & -> & Hka). simpl.
    destruct (Hin k a' Hka) as [Hnil | [Ha Hk]]; [by apply elem_of_nil in Hnil|].
    split; [done|]. exists k. split; [done|].
    destruct (Hall a' Ha) as (token & Htok & Hmem). congruence.
  - intros k a Hka.
    destruct (Hin k a Hka) as [Hnil | [_ Hk]]; [by apply elem_of_nil in Hnil | done].
Qed.

End SyncDict.

Section Sync.
Context `{env : Environment}.

Lemma with_users_id w : with_users (db_users (w_db w)) w = w.
Proof. by destruct w as [? ? [] ? ?]. Qed.

Lemma send_inv rq w r w1 :
  send rq w = (Ok r, w1) ->
  serve rq (w_out w) = (Response (status_code r) (body r), w_out w1) /\
  w_db w1 = w_db w /\ w_saved w1 = w_saved w.
Proof.
  unfold send, mbind, M_bind, http. destruct (serve rq (w_out w)) as [o out'].
  destruct o as [|status b]; simpl; [done|].
  unfold lift. destruct (raise_for_status _); simpl; [|done].
  by intros [= <- <-].
Qed.

Lemma add_turn emby w r w1 :
  (token ← lift (str_field emby "Id");
   existing ← query (fun db =>
     List.find (fun u => bool_decide (u_token u = token)) (db_users db));
   match existing with
   | Some _ => mret tt
   | None =>
       token ← lift (str_field emby "Id");
       name ← lift (str_field emby "Name");
       session_add (mkUser name "empty" "empty" token "empty" None)
   end) w = (r, w1) ->
  match add_missing (db_users (w_db w)) emby with
  | Ok us => r = Ok tt /\ w1 = with_users us w
  | Raise e => r = Raise e
  end.
Proof.
  unfold add_missing, mbind, M_bind, result_bind, lift, query, session_add, set_db.
  destruct (str_field emby "Id") as [token|]; [|by intros [= <- _]].
  destruct (List.find _ _).
  - intros [= <- <-]. by rewrite with_users_id.
  - destruct (str_field emby "Name") as [name|]; [|by intros [= <- _]].
    by intros [= <- <-].
Qed.

Lemma add_loop_inv l w w' :
  for_each l (fun emby =>
    token ← lift (str_field emby "Id");
    existing ← query (fun db =>
      List.find (fun u => bool_decide (u_token u = token)) (db_users db));
    match existing with
    | Some _ => mret tt
    | None =>
        token ← lift (str_field emby "Id");
        name ← lift (str_field emby "Name");
        session_add (mkUser name "empty" "empty" token "empty" None)
    end) w = (Ok tt, w') ->
  exists us, fold_result add_missing (db_users (w_db w)) l = Ok us /\ w' = with_users us w.
Proof.
  revert w. induction l as [|a l IH]; intros w.
  - intros [= <-]. exists (db_users (w_db w)). by rewrite with_users_id.
  - cbn [for_each fold_result].
    intros [(e & Hturn & [=]) | ([] & w1 & Hturn & Hrest)]%bind_inv.
    apply add_turn in Hturn. unfold mbind at 1, result_bind at 1.
    destruct (add_missing (db_users (w_db w)) a) as [us1|]; [|done].
    destruct Hturn as [_ ->]. apply IH in Hrest as (us & Hfold & ->).
    exists us. by split.
Qed.

Lemma drop_loop {V} (emby_users : list (string * V)) l w :
  for_each l (fun dbu =>
    if dict_mem (u_token dbu) emby_users then mret tt else session_delete dbu) w =
  (Ok tt, with_users (foldl (drop_orphan emby_users) (db_users (w_db w)) l) w).
Proof.
  revert w. induction l as [|x l IH]; intros w.
  - simpl. by rewrite with_users_id.
  - cbn [for_each foldl]. unfold mbind at 1, M_bind at 1, drop_orphan at 2.
    destruct (dict_mem (u_token x) emby_users).
    + unfold mret, M_ret. apply IH.
    + unfold session_delete, mbind, M_bind, query, set_db. by rewrite IH.
Qed.

Lemma list_users_run w users w' :
  list_users w = (Ok users, w') ->
  exists r w1 v accounts emby_users us1,
    client_get "/Users" w = (Ok r, w1) /\
    response_json r = Ok v /\
    py_iter v = Ok accounts /\
    accounts_by_id accounts = Ok emby_users /\
    fold_result add_missing (db_users (w_db w)) (dict_values emby_users) = Ok us1 /\
    users = filter (fun u => dict_mem (u_token u) emby_users = true) us1 /\
    db_users (w_db w') = users /\
    w_saved w' = w_db w'.
Proof.
  unfold list_users. intros Hrun.
  apply bind_inv in Hrun as [(? & _ & [=]) | (r & w1 & Hget & Hrun)].
  apply bind_inv in Hrun as [(? & _ & [=]) | (v & ? & [= Hv <-] & Hrun)].
  apply bind_inv in Hrun as [(? & _ & [=]) | (accounts & ? & [= Hiter <-] & Hrun)].
  apply bind_inv in Hrun as [(? & _ & [=]) | (emby_users & ? & [= Hdict <-] & Hrun)].
  apply bind_inv in Hrun as [(? & _ & [=]) | ([] & w2 & Hadd & Hrun)].
  apply add_loop_inv in Hadd as (us1 & Hfold & ->).
  apply bind_inv in Hrun as [(? & _ & [=]) | ([] & w3 & Hc1 & Hrun)].
  apply commit_inv in Hc1 as [(_ & Hdb3 & Hsaved3) | ([=] & _)].
  apply bind_inv in Hrun as [(? & _ & [=]) | (snapshot & ? & [= <- <-] & Hrun)].
  apply bind_inv in Hrun as [(? & _ & [=]) | ([] & w4 & Hdrop & Hrun)].
  rewrite drop_loop in Hdrop. injection Hdrop as <-.
  apply bind_inv in Hrun as [(? & _ & [=]) | ([] & w5 & Hc2 & [= <- <-])].
  apply commit_inv in Hc2 as [(_ & Hdb5 & Hsaved5) | ([=] & _)].
  apply send_inv in Hget as Hsend. destruct Hsend as (_ & Hdb1 & _).
  exists r, w1, v, accounts, emby_users, us1.
  rewrite Hdb1 in Hfold. repeat split; try done.
  - rewrite Hdb5. cbn [with_users w_db db_users]. rewrite Hdb3. cbn [with_users w_db db_users].
    apply (drop_orphans_filter emby_users [] us1). intros u Hu. by apply elem_of_nil in Hu.
  - congruence.
Qed.

(** C6.  After a completed [list_users], with [accounts] the accounts the
    media server returned: the list returned is the session's and the
    committed user list; its tokens are exactly the identifiers of the
    fetched accounts; a local record from before is kept exactly when its
    token is among them; every other record returned is the placeholder of
    a fetched account that no local record mirrored; and every fetched
    account without a local record has such a placeholder. *)
Theorem list_users_sync w users w' st v out1 accounts :
  serve (mkRequest GET "/Users" None) (w_out w) = (Response st (Some v), out1) ->
  py_iter v = Ok accounts ->
  list_users w = (Ok users, w') ->
  let remote token := exists a, a ∈ accounts /\ str_field a "Id" = Ok token in
  let unmirrored token := forall u, u ∈ db_users (w_db w) -> u_token u <> token in
  users = db_users (w_db w') /\
  w_saved w' = w_db w' /\
  (forall token, token ∈ u_token <$> users <-> remote token) /\
  (forall u, u ∈ db_users (w_db w) -> (u ∈ users <-> remote (u_token u))) /\
  (forall u, u ∈ users ->
     u ∈ db_users (w_db w) \/
     exists a name, a ∈ accounts /\ str_field a "Id" = Ok (u_token u) /\
       str_field a "Name" = Ok name /\ u = placeholder (u_token u) name /\
       unmirrored (u_token u)) /\
  (forall token, remote token -> unmirrored token ->
     exists a name, a ∈ accounts /\ str_field a "Id" = Ok token /\
       str_field a "Name" = Ok name /\ placeholder token name ∈ users).
Proof.
  intros Hserve Hiter Hrun remote unmirrored.
  apply list_users_run in Hrun
    as (r & w1 & v' & accounts' & emby_users & us1 & Hget & Hv & Hiter' & Hdict & Hfold
        & Husers & Hdb & Hsaved).
  apply send_inv in Hget as (Hserve' & _). rewrite Hserve in Hserve'.
  injection Hserve' as _ Hbody _. unfold response_json in Hv. rewrite <- Hbody in Hv.
  injection Hv as <-. rewrite Hiter in Hiter'. injection Hiter' as <-.
  apply accounts_by_id_spec in Hdict as (Hkeys & Hvalues & Hfiled).
  apply add_missing_fold in Hfold as [(news & -> & Hnews) Hall].
  assert (forall u, u ∈ users <->
            (u ∈ db_users (w_db w) \/ u ∈ news) /\ remote (u_token u)) as Hin.
  { intros u. rewrite Husers, list_elem_of_filter, elem_of_app, Hkeys. tauto. }
  assert (forall n, n ∈ news -> remote (u_token n)) as Hnew_remote.
  { intros n Hn. destruct (Hnews n Hn) as (a & name & Ha & Hid & _).
    apply Hvalues in Ha as [Ha _]. by exists a. }
  assert (forall token, remote token -> exists u, u ∈ users /\ u_token u = token) as Hcover.
  { intros token Hremote. apply Hkeys in Hremote. unfold dict_mem in Hremote.
    destruct (dict_get token emby_users) as [a|] eqn:Hget; [|done].
    apply dict_get_Some_elem in Hget.
    assert (a ∈ dict_values emby_users) as Ha.
    { apply list_elem_of_fmap. by exists (token, a). }
    destruct (Hvalues a Ha) as (Hacc & _).
    destruct (Hall a Ha) as (token' & Htok & u & Hu & Hut).
    apply Hfiled in Hget.
    assert (token' = token) as -> by congruence.
    exists u. split; [|done]. apply Hin. split; [by apply elem_of_app|].
    rewrite Hut. by exists a. }
  repeat split.
  - done.
  - done.
  - intros (u & -> & Hu)%list_elem_of_fmap. by apply Hin in Hu as [_ ?].
  - intros Hremote. destruct (Hcover token Hremote) as (u & Hu & <-).
    apply list_elem_of_fmap. by exists u.
  - intros Hu'. by apply Hin in Hu' as [_ ?].
  - intros Hremote. apply Hin. split; [by left | done].
  - intros u Hu. apply Hin in Hu as [[Hold | Hn] Hremote]; [by left|]. right.
    destruct (Hnews u Hn) as (a & name & Ha & Hid & Hname & Heq & Hold).
    exists a, name. apply Hvalues in Ha as [Ha _]. done.
  - intros token Hremote Hunm. destruct (Hcover token Hremote) as (u & Hu & <-).
    pose proof Hu as Hu'. apply Hin in Hu' as [[Hold | Hn] _]; [by apply Hunm in Hold|].
    destruct (Hnews u Hn) as (a & name & Ha & Hid & Hname & Heq & _).
    exists a, name. apply Hvalues in Ha as [Ha _]. rewrite <- Heq. done.
Qed.

End Sync.

Lemma list_users_sync_witness :
  let users := [sync_user_A; placeholder "B" "bruno"] in
  let w' := (list_users (env := scripted) sync_world).2 in
  let remote token := exists a, a ∈ sync_accounts /\ str_field a "Id" = Ok token in
  let unmirrored token :=
    forall u, u ∈ db_users (w_db sync_world) -> u_token u <> token in
  list_users (env := scripted) sync_world = (Ok users, w') /\
  users = db_users (w_db w') /\
  w_saved w' = w_db w' /\
  (forall token, token ∈ u_token <$> users <-> remote token) /\
  (forall u, u ∈ db_users (w_db sync_world) -> (u ∈ users <-> remote (u_token u))) /\
  (forall u, u ∈ users ->
     u ∈ db_users (w_db sync_world) \/
     exists a name, a ∈ sync_accounts /\ str_field a "Id" = Ok (u_token u) /\
       str_field a "Name" = Ok name /\ u = placeholder (u_token u) name /\
       unmirrored (u_token u)) /\
  (forall token, remote token -> unmirrored token ->
     exists a name, a ∈ sync_accounts /\ str_field a "Id" = Ok token /\
       str_field a "Name" = Ok name /\ placeholder token name ∈ users).
Proof.
  intros users w'. split; [reflexivity|].
  apply (list_users_sync (env := scripted) sync_world users w' 200 (PList sync_accounts)
           (mkScript [] [] []) sync_accounts); reflexivity.
Defined.

(** ** Account updates *)

Section Update.

Lemma coerce_bool_True b : coerce (PBool b) (PStr "True") = Ok (PBool true).
Proof. reflexivity. Qed.

Lemma coerce_list_empty xs : coerce (PList xs) (PStr "") = Ok (PList []).
Proof. reflexivity. Qed.

Lemma update_field_absent key val section d block :
  dict_get section d = Some (PDict block) ->
  dict_get key block = None ->
  update_field key (PDict d, val) section = Ok (PDict d, val).
Proof.
  intros Hsection Hkey. unfold update_field, mbind, result_bind. simpl.
  rewrite Hsection. simpl. unfold dict_mem. by rewrite Hkey.
Qed.

Lemma update_field_present key val section d block target val' :
  dict_get section d = Some (PDict block) ->
  dict_get key block = Some target ->
  coerce target val = Ok val' ->
  update_field key (PDict d, val) section =
  Ok (PDict (dict_set section (PDict (dict_set key val' block)) d), val').
Proof.
  intros Hsection Hkey Hcoerce. unfold update_field, mbind, result_bind. simpl.
  rewrite Hsection. simpl. unfold dict_mem. rewrite Hkey. by rewrite Hcoerce.
Qed.


(** C8 fails on the code.  The inner loop of [update_user] rebinds [val]
    to the coerced value, so for a key that both blocks hold the
    Configuration block is given the value already coerced for the Policy
    block: a boolean field patched with "True" ends up [False] there, and
    a list field makes the call raise, because a list has no [split]. *)
Theorem update_user_rebinds_patch_value :
  let account :=
    PDict [("Policy", PDict [("IsAdmin", PBool false); ("Tags", PList [PStr "a"; PStr "b"])]);
           ("Configuration", PDict [("IsAdmin", PBool false); ("Tags", PList [PStr "a"])])] in
  let w := demo_world (mkScript [Response 200 (Some account); Response 200 (Some account)] [] [])
             (demo_db PNone) in
  update_fields account [("IsAdmin", PStr "True")] =
    Ok (PDict [("Policy", PDict [("IsAdmin", PBool true); ("Tags", PList [PStr "a"; PStr "b"])]);
               ("Configuration", PDict [("IsAdmin", PBool false); ("Tags", PList [PStr "a"])])]) /\
  w_http (update_user (env := scripted) "u1" [("IsAdmin", PStr "True")] w).2 =
    [mkRequest GET "/Users/u1" None;
     mkRequest POST "/Users/u1"
       (Some (PDict [("Policy", PDict [("IsAdmin", PBool true);
                                       ("Tags", PList [PStr "a"; PStr "b"])]);
                     ("Configuration", PDict [("IsAdmin", PBool false);
                                              ("Tags", PList [PStr "a"])])]))] /\
  update_fields account [("Tags", PStr "")] = Raise AttributeError /\
  (update_user (env := scripted) "u1" [("Tags", PStr "")] w).1 = Raise AttributeError.
Proof. vm_compute. done. Qed.

End Update.


(** ** Further properties *)

Section SyncTwice.
Context `{env : Environment}.

Lemma filter_all_kept {A} (P : A -> Prop) `{forall x, Decision (P x)} (l : list A) :
  (forall x, x ∈ l -> P x) -> filter P l = l.
Proof.
  induction l as [|x l IH]; intros Hall; [done|].
  rewrite filter_cons_True by (apply Hall, list_elem_of_here).
  f_equal. apply IH. intros y Hy. by apply Hall, list_elem_of_further.
Qed.

Lemma add_missing_mirrored old l us :
  (forall a token, a ∈ l -> str_field a "Id" = Ok token ->
     exists u, u ∈ old /\ u_token u = token) ->
  fold_result add_missing old l = Ok us -> us = old.
Proof.
  induction l as [|a l IH]; intros Hall; [by intros [= <-]|].
  cbn [fold_result]. unfold mbind at 1, result_bind at 1.
  destruct (add_missing old a) as [us1|] eqn:Hstep; [|done].
  unfold add_missing, mbind, result_bind in Hstep.
  destruct (str_field a "Id") as [token|] eqn:Hid; [|done].
  destruct (List.find _ old) as [u0|] eqn:Hfind.
  - injection Hstep as <-. apply IH. intros a' token' Ha'. by apply Hall, list_elem_of_further.
  - destruct (Hall a token (list_elem_of_here _ _) Hid) as (u & Hu & Htok).
    apply list_elem_of_In in Hu. eapply find_none in Hfind; [|exact Hu].
    apply bool_decide_eq_false in Hfind. contradiction.
Qed.

(** The tokens of the users a completed [list_users] returns are the
    identifiers of the accounts it fetched. *)
Lemma list_users_tokens w users w' st v out1 accounts :
  serve (mkRequest GET "/Users" None) (w_out w) = (Response st (Some v), out1) ->
  py_iter v = Ok accounts ->
  list_users w = (Ok users, w') ->
  users = db_users (w_db w') /\
  (forall token, token ∈ u_token <$> users <->
                 exists a, a ∈ accounts /\ str_field a "Id" = Ok token).
Proof.
  intros Hserve Hiter Hrun.
  apply list_users_run in Hrun
    as (r & w1 & v' & accounts' & emby_users & us1 & Hget & Hv & Hiter' & Hdict & Hfold
        & Husers & Hdb & _).
  apply send_inv in Hget as (Hserve' & _). rewrite Hserve in Hserve'.
  injection Hserve' as _ Hbody _. unfold response_json in Hv. rewrite <- Hbody in Hv.
  injection Hv as <-. rewrite Hiter in Hiter'. injection Hiter' as <-.
  apply accounts_by_id_spec in Hdict as (Hkeys & Hvalues & Hfiled).
  apply add_missing_fold in Hfold as [_ Hall].
  split; [done|]. intros token. rewrite Husers. split.
  - intros (u & -> & [Hu _]%list_elem_of_filter)%list_elem_of_fmap. by apply Hkeys.
  - intros Hremote. apply Hkeys in Hremote. pose proof Hremote as Hmem.
    unfold dict_mem in Hremote.
    destruct (dict_get token emby_users) as [a|] eqn:Hget; [|done].
    apply dict_get_Some_elem in Hget.
    assert (a ∈ dict_values emby_users) as Ha.
    { apply list_elem_of_fmap. by exists (token, a). }
    destruct (Hall a Ha) as (token' & Htok & u & Hu & Hut).
    apply Hfiled in Hget. assert (token' = token) as -> by congruence.
    apply list_elem_of_fmap. exists u. split; [done|].
    apply list_elem_of_filter. split; [by rewrite Hut | done].
Qed.

(** X2.  Sync idempotence.  A second [list_users], when the media server
    returns accounts with the same identifiers as the first time, returns
    the list the first one returned. *)
Theorem list_users_idempotent w users w' st v out1 accounts st2 v2 out2 accounts2 users2 w2 :
  serve (mkRequest GET "/Users" None) (w_out w) = (Response st (Some v), out1) ->
  py_iter v = Ok accounts ->
  list_users w = (Ok users, w') ->
  serve (mkRequest GET "/Users" None) (w_out w') = (Response st2 (Some v2), out2) ->
  py_iter v2 = Ok accounts2 ->
  (forall token,
     (exists a, a ∈ accounts /\ str_field a "Id" = Ok token) <->
     (exists a, a ∈ accounts2 /\ str_field a "Id" = Ok token)) ->
  list_users w' = (Ok users2, w2) ->
  users2 = users.
Proof.
  intros Hserve Hiter Hrun Hserve2 Hiter2 Hsame Hrun2.
  destruct (list_users_tokens w users w' st v out1 accounts Hserve Hiter Hrun)
    as (Husers & Htokens).
  apply list_users_run in Hrun2
    as (r & w1 & v' & accounts' & emby_users & us1 & Hget & Hv & Hiter' & Hdict & Hfold
        & -> & _ & _).
  apply send_inv in Hget as (Hserve' & _). rewrite Hserve2 in Hserve'.
  injection Hserve' as _ Hbody _. unfold response_json in Hv. rewrite <- Hbody in Hv.
  injection Hv as <-. rewrite Hiter2 in Hiter'. injection Hiter' as <-.
  apply accounts_by_id_spec in Hdict as (Hkeys & Hvalues & _).
  rewrite <- Husers in Hfold.
  assert (us1 = users) as ->.
  { eapply add_missing_mirrored; [|exact Hfold].
    intros a token Ha Hid. apply Hvalues in Ha as [Ha _].
    assert (token ∈ u_token <$> users) as Hin.
    { apply Htokens, Hsame. by exists a. }
    apply list_elem_of_fmap in Hin as (u & -> & Hu). by exists u. }
  apply filter_all_kept. intros u Hu. apply Hkeys, Hsame, Htokens.
  apply list_elem_of_fmap. by exists u.
Qed.

End SyncTwice.

Lemma list_users_idempotent_witness :
  let w := demo_world (mkScript [Response 200 (Some (PList sync_accounts));
                                 Response 200 (Some (PList (rev sync_accounts)))] [] [])
             (mkDb [sync_user_A; sync_user_C] [] []) in
  let w' := (list_users (env := scripted) w).2 in
  (list_users (env := scripted) w).1 = Ok [sync_user_A; placeholder "B" "bruno"] /\
  (list_users (env := scripted) w').1 = Ok [sync_user_A; placeholder "B" "bruno"] /\
  [sync_user_A; placeholder "B" "bruno"] = [sync_user_A; placeholder "B" "bruno"].
Proof.
  intros w w'. split; [reflexivity|]. split; [reflexivity|].
  apply (list_users_idempotent (env := scripted) w
           [sync_user_A; placeholder "B" "bruno"] w' 200 (PList sync_accounts)
           (mkScript [Response 200 (Some (PList (rev sync_accounts)))] [] [])
           sync_accounts 200 (PList (rev sync_accounts)) (mkScript [] [] [])
           (rev sync_accounts) [sync_user_A; placeholder "B" "bruno"]
           (list_users (env := scripted) w').2); try reflexivity.
  intros token. unfold sync_accounts. cbn [rev app].
  split; intros (a & Ha & Hid); exists a; (split; [|done]);
    repeat (apply elem_of_cons in Ha as [->|Ha]); try (by apply elem_of_nil in Ha);
    cbn; auto using list_elem_of_here, list_elem_of_further.
Defined.

Section FolderNames.
Implicit Types (cache : list (string * string)) (name : string).

(** X3.  [folder_name_to_id] answers with a key of the cache: the reference
    itself when it is a key, else the key of the first entry that carries
    it as a name; it answers [None] exactly when the reference is neither a
    key nor a name of the cache. *)
Theorem folder_name_to_id_correct cache name :
  (name ∈ dict_keys cache -> folder_name_to_id name cache = Some name) /\
  (forall x, folder_name_to_id name cache = Some x ->
     x ∈ dict_keys cache /\ (x = name \/ (x, name) ∈ cache)) /\
  (folder_name_to_id name cache = None <->
     (name ∉ dict_keys cache) /\ (name ∉ dict_values cache)).
Proof.
  unfold folder_name_to_id. repeat split.
  - intros Hin. by apply dict_mem_keys in Hin as ->.
  - destruct (dict_mem name cache) eqn:Hmem.
    + injection H as <-. by apply dict_mem_keys.
    + destruct (List.find _ cache) as [[k n]|] eqn:Hfind; [|done].
      injection H as <-. apply find_some in Hfind as [Hin _].
      apply list_elem_of_fmap. exists (k, n). split; [done | by apply list_elem_of_In].
  - destruct (dict_mem name cache) eqn:Hmem.
    + injection H as <-. by left.
    + destruct (List.find _ cache) as [[k n]|] eqn:Hfind; [|done].
      injection H as <-. apply find_some in Hfind as [Hin Heq].
      apply bool_decide_eq_true in Heq. simpl in Heq. subst n.
      right. by apply list_elem_of_In.
  - destruct (dict_mem name cache) eqn:Hmem; [done|].
    intros Hin. apply dict_mem_keys in Hin. congruence.
  - destruct (dict_mem name cache) eqn:Hmem; [done|].
    destruct (List.find _ cache) as [[k n]|] eqn:Hfind; [done|].
    intros ([k n] & -> & Hin)%list_elem_of_fmap.
    apply list_elem_of_In in Hin. eapply find_none in Hfind; [|exact Hin].
    by apply bool_decide_eq_false in Hfind.
  - intros [Hkey Hname]. destruct (dict_mem name cache) eqn:Hmem.
    { apply dict_mem_keys in Hmem. contradiction. }
    destruct (List.find _ cache) as [[k n]|] eqn:Hfind; [|done].
    apply find_some in Hfind as [Hin Heq]. apply bool_decide_eq_true in Heq.
    simpl in Heq. subst n. exfalso. apply Hname.
    apply list_elem_of_fmap. exists (k, name). split; [done | by apply list_elem_of_In].
Qed.

End FolderNames.

(** ** The client's requests *)

Section DictKeys.
Context {V : Type}.
Implicit Types (d : list (string * V)) (k : string) (v : V).

Lemma dict_keys_set k v d :
  dict_keys (dict_set k v d) = if dict_mem k d then dict_keys d else dict_keys d ++ [k].
Proof.
  unfold dict_mem, dict_keys. induction d as [|[k' v'] d IH]; csimpl; [done|].
  destruct (decide (k = k')) as [->|]; csimpl; [done|].
  rewrite IH. by destruct (dict_get k d).
Qed.

Lemma dict_set_NoDup k v d : NoDup (dict_keys d) -> NoDup (dict_keys (dict_set k v d)).
Proof.
  intros Hd. rewrite dict_keys_set. destruct (dict_mem k d) eqn:Hmem; [done|].
  apply NoDup_app. split; [done|]. split; [|apply NoDup_singleton].
  intros x Hx ->%list_elem_of_singleton. apply dict_mem_keys in Hx. congruence.
Qed.

Lemma dict_of_pairs_from d (pairs : list (string * V)) :
  NoDup (dict_keys d) ->
  NoDup (dict_keys (foldl (fun d kv => dict_set kv.1 kv.2 d) d pairs)).
Proof.
  revert d. induction pairs as [|[k v] pairs IH]; intros d Hd; simpl; [done|].
  by apply IH, dict_set_NoDup.
Qed.

Lemma dict_of_pairs_NoDup (pairs : list (string * V)) : NoDup (dict_keys (dict_of_pairs pairs)).
Proof. apply dict_of_pairs_from. constructor. Qed.

Lemma dict_get_fold_notin k d (pairs : list (string * V)) :
  k ∉ pairs.*1 ->
  dict_get k (foldl (fun d kv => dict_set kv.1 kv.2 d) d pairs) = dict_get k d.
Proof.
  revert d. induction pairs as [|[k' v'] pairs IH]; intros d Hnin; simpl; [done|].
  simpl in Hnin. apply not_elem_of_cons in Hnin as [Hne Hnin].
  rewrite IH by done. by rewrite dict_get_set_ne.
Qed.

(** In a dictionary built from pairs the last pair of a key gives its value. *)
Lemma dict_of_pairs_last (pre post : list (string * V)) k v :
  k ∉ post.*1 -> dict_get k (dict_of_pairs (pre ++ (k, v) :: post)) = Some v.
Proof.
  intros Hnin. unfold dict_of_pairs. rewrite foldl_app. simpl.
  rewrite dict_get_fold_notin by done. apply dict_get_set_eq.
Qed.

End DictKeys.

Section FolderPairs.

Lemma folder_pairs_fields items pairs :
  folder_pairs items = Ok pairs ->
  Forall2 (fun item p => str_field item "Id" = Ok p.1 /\ str_field item "Name" = Ok p.2)
    items pairs.
Proof.
  revert pairs. induction items as [|item items IH]; intros pairs; simpl.
  - intros [= <-]. constructor.
  - unfold mbind, result_bind.
    destruct (str_field item "Id") as [folder_id|] eqn:Hid; [|done].
    destruct (str_field item "Name") as [folder_name|] eqn:Hname; [|done].
    destruct (folder_pairs items) as [ps|]; [|done].
    intros [= <-]. constructor; [done | by apply IH].
Qed.

End FolderPairs.

Section ClientRequests.
Context `{env : Environment}.

Lemma send_run rq w :
  exists out',
    serve rq (w_out w) = ((serve rq (w_out w)).1, out') /\
    (send rq w).2 = mkWorld out' (w_http w ++ [rq]) (w_db w) (w_saved w) (w_log w).
Proof.
  unfold send, mbind, M_bind, http. destruct (serve rq (w_out w)) as [o out'].
  exists out'. split; [done|]. destruct o as [|status b]; simpl; [done|].
  unfold lift. by destruct (raise_for_status _).
Qed.


(** X5.  When the media server answers with a body whose "Items" are
    media folders with an "Id" and a "Name", [libraries] returns a
    dictionary without repeated keys whose keys are the identifiers of the
    items; each entry pairs an identifier with the name of an item that
    carries it, and where several items share an identifier the last one
    gives the name. *)
Theorem libraries_catalog w st v out' listing items pairs :
  serve (mkRequest GET "/Library/MediaFolders" None) (w_out w) = (Response st (Some v), out') ->
  (400 <=? st) && (st <? 600) = false ->
  py_getitem v "Items" = Ok listing ->
  py_iter listing = Ok items ->
  folder_pairs items = Ok pairs ->
  exists catalog,
    (libraries w).1 = Ok catalog /\
    Forall2 (fun item p => str_field item "Id" = Ok p.1 /\ str_field item "Name" = Ok p.2)
      items pairs /\
    NoDup (dict_keys catalog) /\
    (forall k, k ∈ dict_keys catalog <-> k ∈ pairs.*1) /\
    (forall k name, dict_get k catalog = Some name -> (k, name) ∈ pairs) /\
    (forall pre k name post,
       pairs = pre ++ (k, name) :: post -> k ∉ post.*1 -> dict_get k catalog = Some name).
Proof.
  intros Hserve Hst Hlisting Hiter Hpairs. exists (dict_of_pairs pairs). split.
  - unfold libraries, client_get. unfold mbind at 1, M_bind at 1.
    rewrite (send_ok _ _ _ _ _ Hserve Hst).
    unfold mbind at 1, M_bind at 1, lift at 1, response_json at 1. cbn [body].
    unfold mbind at 1, M_bind at 1, lift at 1. rewrite Hlisting.
    unfold mbind at 1, M_bind at 1, lift at 1. rewrite Hiter.
    unfold mbind at 1, M_bind at 1, lift at 1. by rewrite Hpairs.
  - split; [by apply folder_pairs_fields|]. split; [apply dict_of_pairs_NoDup|].
    split; [|split].
    + intros k. rewrite <- dict_mem_keys. apply dict_of_pairs_mem.
    + intros k name Hget. pose proof (dict_of_pairs_get pairs k) as Hin.
      by rewrite Hget in Hin.
    + intros pre k name post -> Hnin. by apply dict_of_pairs_last.
Qed.

End ClientRequests.

Lemma libraries_catalog_witness :
  exists catalog,
    (libraries (env := scripted)
       (demo_world (mkScript [demo_folders] [] []) (demo_db PNone))).1 = Ok catalog /\
    Forall2 (fun item p => str_field item "Id" = Ok p.1 /\ str_field item "Name" = Ok p.2)
      [PDict [("Id", PStr "1"); ("Name", PStr "Movies")];
       PDict [("Id", PStr "2"); ("Name", PStr "Shows")]]
      [("1", "Movies"); ("2", "Shows")] /\
    NoDup (dict_keys catalog) /\
    (forall k, k ∈ dict_keys catalog <-> k ∈ [("1", "Movies"); ("2", "Shows")].*1) /\
    (forall k name, dict_get k catalog = Some name ->
                    (k, name) ∈ [("1", "Movies"); ("2", "Shows")]) /\
    (forall pre k name post,
       [("1", "Movies"); ("2", "Shows")] = pre ++ (k, name) :: post -> k ∉ post.*1 ->
       dict_get k catalog = Some name).
Proof.
  apply (libraries_catalog (env := scripted)
           (demo_world (mkScript [demo_folders] [] []) (demo_db PNone))
           200
           (PDict [("Items", PList [PDict [("Id", PStr "1"); ("Name", PStr "Movies")];
                                    PDict [("Id", PStr "2"); ("Name", PStr "Shows")]])])
           (mkScript [] [] [])
           (PList [PDict [("Id", PStr "1"); ("Name", PStr "Movies")];
                   PDict [("Id", PStr "2"); ("Name", PStr "Shows")]])
           [PDict [("Id", PStr "1"); ("Name", PStr "Movies")];
            PDict [("Id", PStr "2"); ("Name", PStr "Shows")]]
           [("1", "Movies"); ("2", "Shows")]); reflexivity.
Defined.

(** ** Account updates, whole forms *)

Section UpdateForms.
Implicit Types (d policy configuration : list (string * pyval)).

Lemma dict_keys_set_present {V} k (v v0 : V) (d : list (string * V)) :
  dict_get k d = Some v0 -> dict_keys (dict_set k v d) = dict_keys d.
Proof. intros Hget. rewrite dict_keys_set. unfold dict_mem. by rewrite Hget. Qed.

(** One key of the form against both blocks, when no key is in both. *)
Lemma update_key_blocks k val d policy configuration cur val' :
  dict_get "Policy" d = Some (PDict policy) ->
  dict_get "Configuration" d = Some (PDict configuration) ->
  (forall x, x ∈ dict_keys policy -> x ∉ dict_keys configuration) ->
  fold_result (update_field k) (PDict d, val) ["Policy"; "Configuration"] = Ok (cur, val') ->
  exists d1 p1 c1,
    cur = PDict d1 /\
    dict_keys d1 = dict_keys d /\
    dict_get "Policy" d1 = Some (PDict p1) /\
    dict_get "Configuration" d1 = Some (PDict c1) /\
    (forall s, s <> "Policy" -> s <> "Configuration" -> dict_get s d1 = dict_get s d) /\
    dict_keys p1 = dict_keys policy /\
    dict_keys c1 = dict_keys configuration /\
    (forall x, x <> k -> dict_get x p1 = dict_get x policy /\
                         dict_get x c1 = dict_get x configuration) /\
    (forall target, dict_get k policy = Some target ->
       exists v, coerce target val = Ok v /\ dict_get k p1 = Some v) /\
    (forall target, dict_get k configuration = Some target ->
       exists v, coerce target val = Ok v /\ dict_get k c1 = Some v).
Proof.
  intros Hp Hc Hdisjoint. cbn [fold_result]. unfold mbind, result_bind.
  destruct (dict_get k policy) as [target|] eqn:Hkp.
  - assert (dict_get k configuration = None) as Hkc.
    { apply dict_get_None_keys. apply Hdisjoint. apply dict_mem_keys.
      unfold dict_mem. by rewrite Hkp. }
    destruct (coerce target val) as [v|] eqn:Hcoerce.
    + rewrite (update_field_present _ _ _ _ _ _ _ Hp Hkp Hcoerce).
      rewrite (update_field_absent k v "Configuration" _ configuration);
        [| by rewrite dict_get_set_ne | done].
      intros [= <- <-]. exists (dict_set "Policy" (PDict (dict_set k v policy)) d), (dict_set k v policy), configuration.
      split; [done|]. split; [by eapply dict_keys_set_present|].
      split; [apply dict_get_set_eq|]. split; [by rewrite dict_get_set_ne|].
      split; [intros s Hs _; by rewrite dict_get_set_ne|].
      split; [by eapply dict_keys_set_present|]. split; [done|].
      split; [intros x Hx; by rewrite dict_get_set_ne|].
      split; [|congruence].
      intros ? [= <-]. exists v. split; [done | apply dict_get_set_eq].
    + unfold update_field, mbind, result_bind. simpl. rewrite Hp. simpl.
      unfold dict_mem. rewrite Hkp. by rewrite Hcoerce.
  - rewrite (update_field_absent _ _ _ _ _ Hp Hkp).
    destruct (dict_get k configuration) as [target|] eqn:Hkc.
    + destruct (coerce target val) as [v|] eqn:Hcoerce.
      * rewrite (update_field_present _ _ _ _ _ _ _ Hc Hkc Hcoerce).
        intros [= <- <-]. exists (dict_set "Configuration" (PDict (dict_set k v configuration)) d), policy, (dict_set k v configuration).
        split; [done|]. split; [by eapply dict_keys_set_present|].
        split; [by rewrite dict_get_set_ne|]. split; [apply dict_get_set_eq|].
        split; [intros s _ Hs; by rewrite dict_get_set_ne|].
        split; [done|]. split; [by eapply dict_keys_set_present|].
        split; [intros x Hx; by rewrite dict_get_set_ne|].
        split; [congruence|].
        intros ? [= <-]. exists v. split; [done | apply dict_get_set_eq].
      * unfold update_field, mbind, result_bind. simpl. rewrite Hc. simpl.
        unfold dict_mem. rewrite Hkc. by rewrite Hcoerce.
    + rewrite (update_field_absent _ _ _ _ _ Hc Hkc).
      intros [= <- <-]. exists d, policy, configuration.
      repeat split; try done; congruence.
Qed.

Lemma update_fields_cons current k val form :
  update_fields current ((k, val) :: form) =
  match fold_result (update_field k) (current, val) ["Policy"; "Configuration"] with
  | Ok st => update_fields st.1 form
  | Raise e => Raise e
  end.
Proof.
  unfold update_fields at 1. cbn [fold_result fst snd]. unfold mbind, result_bind.
  by destruct (update_field k (current, val) "Policy") as [st|]; [destruct (update_field k st "Configuration")|].
Qed.

(** X6.  A form without repeated keys, applied to an account none of whose
    fields is in both blocks: when [update_fields] succeeds the account
    keeps its top-level keys and every entry other than the two blocks;
    each block keeps its keys in place; a field that the form names holds
    the form's value coerced after the type the field had, and a field the
    form does not name is unchanged.  Keys of the form that neither block
    holds add nothing. *)
Theorem update_fields_merge d policy configuration form r :
  dict_get "Policy" d = Some (PDict policy) ->
  dict_get "Configuration" d = Some (PDict configuration) ->
  (forall x, x ∈ dict_keys policy -> x ∉ dict_keys configuration) ->
  NoDup form.*1 ->
  update_fields (PDict d) form = Ok r ->
  exists d' policy' configuration',
    r = PDict d' /\
    dict_keys d' = dict_keys d /\
    dict_get "Policy" d' = Some (PDict policy') /\
    dict_get "Configuration" d' = Some (PDict configuration') /\
    (forall s, s <> "Policy" -> s <> "Configuration" -> dict_get s d' = dict_get s d) /\
    dict_keys policy' = dict_keys policy /\
    dict_keys configuration' = dict_keys configuration /\
    (forall x target, dict_get x policy = Some target ->
       match dict_get x form with
       | Some val => exists v, coerce target val = Ok v /\ dict_get x policy' = Some v
       | None => dict_get x policy' = Some target
       end) /\
    (forall x target, dict_get x configuration = Some target ->
       match dict_get x form with
       | Some val => exists v, coerce target val = Ok v /\ dict_get x configuration' = Some v
       | None => dict_get x configuration' = Some target
       end).
Proof.
  revert d policy configuration.
  induction form as [|[k val] form IH]; intros d policy configuration Hp Hc Hdisjoint Hnodup.
  - intros [= <-]. exists d, policy, configuration. repeat split; done.
  - rewrite update_fields_cons.
    destruct (fold_result (update_field k) (PDict d, val) ["Policy"; "Configuration"])
      as [[cur val']|] eqn:Hkey; [|done].
    apply (update_key_blocks _ _ _ _ _ _ _ Hp Hc Hdisjoint) in Hkey
      as (d1 & p1 & c1 & -> & Hkeys1 & Hp1 & Hc1 & Hrest1 & Hkp1 & Hkc1 & Hother & Hkpol & Hkconf).
    cbn [fst]. intros Hfold. csimpl in Hnodup. apply NoDup_cons in Hnodup as [Hk Hnodup].
    assert (forall x, x ∈ dict_keys p1 -> x ∉ dict_keys c1) as Hdisjoint1.
    { intros x. rewrite Hkp1, Hkc1. apply Hdisjoint. }
    destruct (IH d1 p1 c1 Hp1 Hc1 Hdisjoint1 Hnodup Hfold)
      as (d' & policy' & configuration' & -> & Hkeys' & Hp' & Hc' & Hrest' & Hkp' & Hkc'
          & Hpol' & Hconf').
    assert (dict_get k form = None) as Hkform.
    { by apply dict_get_None_keys. }
    exists d', policy', configuration'.
    split; [done|]. split; [congruence|]. split; [done|]. split; [done|].
    split; [intros s Hs1 Hs2; rewrite Hrest' by done; by apply Hrest1|].
    split; [congruence|]. split; [congruence|]. split.
    + intros x target Hx. cbn [dict_get]. destruct (decide (x = k)) as [->|Hne].
      * destruct (Hkpol target Hx) as (v & Hcoerce & Hv). exists v. split; [done|].
        specialize (Hpol' k v Hv). by rewrite Hkform in Hpol'.
      * apply Hpol'. destruct (Hother x Hne) as [-> _]. done.
    + intros x target Hx. cbn [dict_get]. destruct (decide (x = k)) as [->|Hne].
      * destruct (Hkconf target Hx) as (v & Hcoerce & Hv). exists v. split; [done|].
        specialize (Hconf' k v Hv). by rewrite Hkform in Hconf'.
      * apply Hconf'. destruct (Hother x Hne) as [_ ->]. done.
Qed.

End UpdateForms.

Lemma update_fields_merge_witness :
  let policy := [("IsAdmin", PBool false); ("MaxSessions", PInt 3)] in
  let configuration := [("Lang", PStr "en")] in
  let d := [("Name", PStr "bob"); ("Policy", PDict policy);
            ("Configuration", PDict configuration)] in
  let form := [("IsAdmin", PStr "True"); ("Lang", PStr "fr"); ("Colour", PStr "red")] in
  exists d' policy' configuration',
    update_fields (PDict d) form = Ok (PDict d') /\
    dict_keys d' = dict_keys d /\
    dict_get "Policy" d' = Some (PDict policy') /\
    dict_get "Configuration" d' = Some (PDict configuration') /\
    dict_get "IsAdmin" policy' = Some (PBool true) /\
    dict_get "MaxSessions" policy' = Some (PInt 3) /\
    dict_get "Lang" configuration' = Some (PStr "fr") /\
    dict_keys configuration' = ["Lang"].
Proof.
  intros policy configuration d form.
  assert (forall x, x ∈ dict_keys policy -> x ∉ dict_keys configuration) as Hdisjoint.
  { intros x Hx Hc. unfold dict_keys, policy, configuration in Hx, Hc. csimpl in Hx. csimpl in Hc.
    rewrite !elem_of_cons, elem_of_nil in Hx. rewrite !elem_of_cons, elem_of_nil in Hc.
    destruct Hc as [->|[]]. by destruct Hx as [|[|[]]]. }
  assert (NoDup form.*1) as Hnodup.
  { apply (bool_decide_unpack _). by vm_compute. }
  destruct (update_fields_merge d policy configuration form _ eq_refl eq_refl
              Hdisjoint Hnodup eq_refl)
    as (d' & policy' & configuration' & Hr & Hkeys & Hp & Hc & _ & _ & Hkc & Hpol & Hconf).
  exists d', policy', configuration'.
  split; [by rewrite <- Hr|]. split; [done|]. split; [done|]. split; [done|].
  destruct (Hpol "IsAdmin" (PBool false) eq_refl) as (v1 & [= <-] & Hv1).
  pose proof (Hpol "MaxSessions" (PInt 3) eq_refl) as Hv2.
  destruct (Hconf "Lang" (PStr "en") eq_refl) as (v3 & [= <-] & Hv3).
  done.
Defined.

(** ** Requests of an account update *)

Section UpdateRequests.
Context `{env : Environment}.

Lemma get_user_run uid w :
  exists out',
    (get_user uid w).2 =
    mkWorld out' (w_http w ++ [mkRequest GET ("/Users/" +:+ uid) None])
      (w_db w) (w_saved w) (w_log w).
Proof.
  unfold get_user, client_get, mbind, M_bind.
  destruct (send_run (mkRequest GET ("/Users/" +:+ uid) None) w) as (out' & _ & Hw).
  exists out'. destruct (send _ w) as [[resp|e] w1]; simpl in *; done.
Qed.

(** X7.  [update_user] reads the account and posts it back at most once:
    the only request besides the read is the write of the fetched account
    patched by [update_fields], and it is issued only when the read and
    every coercion succeeded.  When the read, or the coercion of any field
    of the form, fails, the call raises and nothing is written to the media
    server.  Local records and the log are never touched. *)
Theorem update_user_requests uid form w :
  let r := (update_user uid form w).1 in
  let w' := (update_user uid form w).2 in
  let fetch := mkRequest GET ("/Users/" +:+ uid) None in
  w_db w' = w_db w /\ w_saved w' = w_saved w /\ w_log w' = w_log w /\
  ((is_ok r = false /\ w_http w' = w_http w ++ [fetch]) \/
   exists account patched,
     (get_user uid w).1 = Ok account /\
     update_fields account form = Ok patched /\
     w_http w' = w_http w ++ [fetch; mkRequest POST ("/Users/" +:+ uid) (Some patched)]).
Proof.
  intros r w' fetch. subst r w'.
  destruct (update_user uid form w) as [r w'] eqn:Hrun. simpl.
  unfold update_user in Hrun.
  destruct (get_user_run uid w) as (out1 & Hw1). fold fetch in Hw1.
  apply bind_inv in Hrun as [(e & Hget & ->) | (account & w1 & Hget & Hrun)].
  { rewrite Hget in Hw1. simpl in Hw1. subst w'. simpl. auto 6. }
  rewrite Hget in Hw1. simpl in Hw1. subst w1.
  apply bind_inv in Hrun as [(e & [= Hfields <-] & ->) | (patched & ? & [= Hfields <-] & Hrun)].
  { simpl. auto 6. }
  unfold client_post in Hrun.
  destruct (send_run (mkRequest POST ("/Users/" +:+ uid) (Some patched))
              (mkWorld out1 (w_http w ++ [fetch]) (w_db w) (w_saved w) (w_log w)))
    as (out2 & _ & Hw2). simpl in Hw2.
  assert (w' = mkWorld out2 ((w_http w ++ [fetch]) ++
                 [mkRequest POST ("/Users/" +:+ uid) (Some patched)])
                 (w_db w) (w_saved w) (w_log w)) as ->.
  { apply bind_inv in Hrun as [(e & Hpost & ->) | (resp & w2 & Hpost & [= _ <-])];
      rewrite Hpost in Hw2; simpl in Hw2; by subst. }
  simpl. split; [done|]. split; [done|]. split; [done|]. right.
  exists account, patched. rewrite Hget. simpl. rewrite <- app_assoc. done.
Qed.

End UpdateRequests.

(** ** Every run of [set_specific_folders] *)

Section FolderRuns.
Context `{env : Environment}.

(** The warnings of the loop of lines 190-201: one for each reference that
    matches nothing, in the order of the references. *)
Lemma collect_folders_warnings d1 d2 names acc w :
  collect_folders d1 d2 names acc w =
  (Ok (acc ++ omap (match_folder d1 d2) names),
   mkWorld (w_out w) (w_http w) (w_db w) (w_saved w)
     (w_log w ++
      ((fun name => LogWarning ("Could not find library matching: " +:+ name)) <$>
       filter (fun name => match_folder d1 d2 name = None) names))).
Proof.
  revert acc w. induction names as [|name names IH]; intros acc w.
  - simpl. rewrite !app_nil_r. by destruct w.
  - cbn [collect_folders omap list_omap].
    destruct (match_folder d1 d2 name) as [x|] eqn:Hm; unfold match_folder in Hm.
    + rewrite filter_cons_False by (unfold match_folder; by rewrite Hm).
      destruct (dict_mem name d1).
      * injection Hm as <-. rewrite IH. by rewrite <- app_assoc.
      * rewrite Hm. rewrite IH. by rewrite <- app_assoc.
    + rewrite filter_cons_True by (unfold match_folder; by rewrite Hm).
      destruct (dict_mem name d1); [done|]. rewrite Hm.
      unfold mbind, M_bind, log_warning. rewrite IH. csimpl.
      by rewrite <- app_assoc.
Qed.


End FolderRuns.

Section FolderRequests.
Context `{env : Environment}.


End FolderRequests.

(** ** Every run of [join] *)

Section JoinRuns.
Context `{env : Environment}.

Lemma only_issues_nothing w w' : only_issues (fun _ : request => False) w w' -> w_http w' = w_http w.
Proof.
  intros (reqs & -> & Hnone). destruct reqs as [|rq reqs]; [by rewrite app_nil_r|].
  by apply Forall_cons in Hnone as [[] _].
Qed.



Lemma join_checks_pass u p c e code db usr :
  join_checks u p c e code db = None ->
  usr ∈ db_users db -> u_username usr <> u /\ u_email usr <> e.
Proof.
  unfold join_checks. intros Hchecks Hin.
  destruct (negb (fullmatch EMAIL_RE e)); [done|].
  destruct (negb _); [done|].
  destruct (bool_decide (p ≠ c)); [done|].
  destruct (negb _); [done|].
  destruct (List.find _ (db_users db)) eqn:Hfind; [done|].
  apply list_elem_of_In in Hin. eapply find_none in Hfind; [|exact Hin].
  apply orb_false_iff in Hfind as [H1 H2].
  by apply bool_decide_eq_false in H1, H2.
Qed.


End JoinRuns.

Section JoinDirectory.
Context `{env : Environment}.

Lemma join_session_after u p c e code w :
  let r := (join u p c e code w).1 in
  let w' := (join u p c e code w).2 in
  (r <> Ok (true, "") /\ w_saved w' = w_saved w /\ (w_db w' = w_db w \/ w_db w' = w_saved w)) \/
  (join_checks u p c e code (w_db w) = None /\
   w_saved w' = w_db w' /\
   exists uid expires,
     db_users (w_db w') = db_users (w_db w) ++ [mkUser u e "emby-user" uid code expires]).
Proof.
  intros r w'. subst r w'. rewrite join_after_checks.
  destruct (join_checks u p c e code (w_db w)) as [msg|] eqn:Hchecks.
  { left. cbn [fst snd]. split; [|auto]. intros [=]. }
  unfold try_except.
  destruct ((create_user u p ≫= join_provision u e code) w) as [[res|cause] w1] eqn:Hrun;
    [|rewrite join_handler_run]; cbn [fst snd w_db w_saved];
    (apply bind_inv in Hrun as [(? & Hcreate & Hr) | (uid & w0 & Hcreate & Hprov)]);
    pose proof (create_user_keeps_records u p w) as [Hdb Hsaved];
    rewrite Hcreate in Hdb, Hsaved; simpl in Hdb, Hsaved; try discriminate.
  - apply join_provision_runs in Hprov
      as [[? _] | (i & inv & expires & _ & _ & [(? & _) | (_ & Hs & Hd)])];
      try discriminate.
    right. split; [done|]. split; [congruence|].
    exists uid, expires. rewrite Hd, Hdb. done.
  - left. split; [done|]. split; [done|]. right. congruence.
  - apply join_provision_runs in Hprov
      as [[_ Hs] | (i & inv & expires & _ & _ & [(_ & Hs & _) | (_ & Hs & _)])].
    + left. split; [done|]. split; [congruence|]. right. congruence.
    + right. split; [done|]. split; [done|]. exists uid, expires. rewrite Hs, Hdb. done.
    + right. split; [done|]. split; [done|]. exists uid, expires. rewrite Hs, Hdb. done.
Qed.

(** X10.  [join] keeps the usernames and the e-mail addresses of the local
    users pairwise distinct: when they are distinct in the session and in
    the committed records before the call, they are distinct in both after
    it, whatever the outcome of the call. *)
Theorem join_keeps_users_distinct u p c e code w :
  let distinct db :=
    NoDup (u_username <$> db_users db) /\ NoDup (u_email <$> db_users db) in
  distinct (w_db w) -> distinct (w_saved w) ->
  let w' := (join u p c e code w).2 in
  distinct (w_db w') /\ distinct (w_saved w').
Proof.
  intros distinct Hsession Hcommitted w'. subst w'.
  destruct (join_session_after u p c e code w)
    as [(_ & -> & [-> | ->]) | (Hchecks & -> & uid & expires & Husers)]; [done..|].
  assert (distinct (w_db (join u p c e code w).2)) as Hnew; [|done].
  destruct Hsession as [Hnames Hmails]. unfold distinct. rewrite Husers, !fmap_app.
  split; (apply NoDup_app; split; [done|]; split; [|apply NoDup_singleton]);
    intros x (usr & -> & Hin)%list_elem_of_fmap Heq%list_elem_of_singleton;
    simpl in Heq; by destruct (join_checks_pass _ _ _ _ _ _ _ Hchecks Hin).
Qed.

(** X11.  Once a run of [join] has succeeded, or has failed after it
    committed anything, a further request for the same username or the same
    e-mail address is turned down by the opening checks: it returns
    [(False, msg)] and leaves the world as it is, so the remote account is
    not created a second time. *)
Theorem join_repeat_rejected u p c e code w u2 p2 c2 e2 code2 :
  let r := (join u p c e code w).1 in
  let w' := (join u p c e code w).2 in
  r = Ok (true, "") \/ w_saved w' <> w_saved w ->
  u2 = u \/ e2 = e ->
  exists msg, join u2 p2 c2 e2 code2 w' = (Ok (false, msg), w').
Proof.
  intros r w' Hdone Hsame. subst r w'.
  destruct (join_session_after u p c e code w)
    as [(Hr & Hs & _) | (_ & _ & uid & expires & Husers)]; [by destruct Hdone|].
  destruct (join_checks_reject u2 p2 c2 e2 code2 (w_db (join u p c e code w).2))
    as (msg & Hmsg & _).
  { right. right. right. right. exists (mkUser u e "emby-user" uid code expires).
    split; [rewrite Husers; apply elem_of_app; right; apply list_elem_of_here|].
    simpl. destruct Hsame; auto. }
  exists msg. by rewrite join_after_checks, Hmsg.
Qed.

End JoinDirectory.

Lemma join_keeps_users_distinct_witness :
  let w := demo_world (mkScript demo_answers [] [])
             (mkDb [sync_user_A] [demo_invitation (PInt 7)] []) in
  let w' := (join (env := scripted) "bob" "password1" "password1" "bob@example.org"
               "INVITE" w).2 in
  u_username <$> db_users (w_saved w') = ["alice"; "bob"] /\
  (NoDup (u_username <$> db_users (w_db w')) /\ NoDup (u_email <$> db_users (w_db w'))) /\
  (NoDup (u_username <$> db_users (w_saved w')) /\ NoDup (u_email <$> db_users (w_saved w'))).
Proof.
  intros w w'. split; [reflexivity|].
  apply (join_keeps_users_distinct (env := scripted) "bob" "password1" "password1"
           "bob@example.org" "INVITE" w);
    split; apply (bool_decide_unpack _); by vm_compute.
Defined.

Lemma join_repeat_rejected_witness :
  let w := demo_world (mkScript demo_answers [true; false] []) (demo_db (PInt 7)) in
  let w' := (join (env := scripted) "bob" "password1" "password1" "bob@example.org"
               "INVITE" w).2 in
  (join (env := scripted) "bob" "password1" "password1" "bob@example.org" "INVITE" w).1 =
    Ok (false, "An unexpected error occurred during user creation.") /\
  exists msg,
    join (env := scripted) "bob" "password2" "password2" "robert@example.org" "INVITE" w' =
    (Ok (false, msg), w').
Proof.
  intros w w'. split; [reflexivity|].
  apply (join_repeat_rejected (env := scripted) "bob" "password1" "password1"
           "bob@example.org" "INVITE" w "bob" "password2" "password2"
           "robert@example.org" "INVITE").
  - right. vm_compute. discriminate.
  - by left.
Defined.

(** ** The addresses [EMAIL_RE] accepts *)

Section EmailShape.

Lemma fullmatch_never s : fullmatch RNever s = false.
Proof. induction s as [|a s IH]; [done | exact IH]. Qed.

Lemma fullmatch_empty s : fullmatch REmpty s = true <-> s = "".
Proof.
  destruct s as [|a s]; [done|]. simpl. rewrite fullmatch_never. split; done.
Qed.

Lemma fullmatch_alt r1 r2 s :
  fullmatch (RAlt r1 r2) s = fullmatch r1 s || fullmatch r2 s.
Proof. revert r1 r2. induction s as [|a s IH]; intros r1 r2; [done | apply IH]. Qed.

(** The matcher on a concatenation: the subject splits into a part for
    each operand. *)
Lemma fullmatch_seq r1 r2 s :
  fullmatch (RSeq r1 r2) s = true <->
  exists s1 s2, s = s1 +:+ s2 /\ fullmatch r1 s1 = true /\ fullmatch r2 s2 = true.
Proof.
  revert r1. induction s as [|a s IH]; intros r1.
  - simpl. rewrite andb_true_iff. split.
    + intros [H1 H2]. by exists "", "".
    + intros (s1 & s2 & Heq & H1 & H2). destruct s1; [|done]. destruct s2; [|done]. done.
  - cbn [fullmatch deriv]. destruct (nullable r1) eqn:Hnull.
    + rewrite fullmatch_alt, orb_true_iff, IH. split.
      * intros [(s1 & s2 & -> & H1 & H2) | H2].
        -- by exists (String a s1), s2.
        -- by exists "", (String a s).
      * intros (s1 & s2 & Heq & H1 & H2). destruct s1 as [|a1 s1].
        -- right. change (String a s = s2) in Heq. by subst s2.
        -- left. change (String a s = String a1 (s1 +:+ s2)) in Heq.
           injection Heq as <- ->. by exists s1, s2.
    + rewrite IH. split.
      * intros (s1 & s2 & -> & H1 & H2). by exists (String a s1), s2.
      * intros (s1 & s2 & Heq & H1 & H2). destruct s1 as [|a1 s1].
        -- simpl in H1. congruence.
        -- change (String a s = String a1 (s1 +:+ s2)) in Heq.
           injection Heq as <- ->. by exists s1, s2.
Qed.

Lemma fullmatch_char c s : fullmatch (RChar c) s = true <-> s = String c "".
Proof.
  destruct s as [|a s]; [done|]. simpl. case_bool_decide as Hc.
  - rewrite fullmatch_empty. split; [by intros -> ; subst | by intros [= _ ->]].
  - rewrite fullmatch_never. split; [done | by intros [= -> _]].
Qed.

Lemma fullmatch_not_char c s :
  fullmatch (RNotChar c) s = true <-> exists a, s = String a "" /\ a <> c.
Proof.
  destruct s as [|a s]; simpl.
  - split; [done | by intros (? & ? & _)].
  - case_bool_decide as Hc.
    + rewrite fullmatch_never. split; [done | intros (? & [= -> _] & ?); done].
    + rewrite fullmatch_empty. split; [intros ->; by exists a | by intros (? & [= _ ->] & _)].
Qed.

Lemma fullmatch_star_not_char c s :
  fullmatch (RStar (RNotChar c)) s = true <-> c ∉ list_ascii_of_string s.
Proof.
  induction s as [|a s IH]; simpl.
  - split; [intros _; apply not_elem_of_nil | done].
  - rewrite not_elem_of_cons. case_bool_decide as Hc.
    + split; [|intros [? _]; congruence].
      intros (s1 & ? & _ & H1 & _)%fullmatch_seq. by rewrite fullmatch_never in H1.
    + rewrite <- IH. split.
      * intros (s1 & s2 & -> & ->%fullmatch_empty & H2)%fullmatch_seq. split; [congruence | done].
      * intros [_ H2]. apply fullmatch_seq. by exists "", s.
Qed.

Lemma fullmatch_plus_not_char c s :
  fullmatch (RPlus (RNotChar c)) s = true <-> s <> "" /\ c ∉ list_ascii_of_string s.
Proof.
  unfold RPlus. rewrite fullmatch_seq. split.
  - intros (s1 & s2 & -> & (a & -> & Ha)%fullmatch_not_char & H2%fullmatch_star_not_char).
    split; [done|]. simpl. apply not_elem_of_cons. split; [congruence | done].
  - intros [Hne Hnot]. destruct s as [|a s]; [done|]. simpl in Hnot.
    apply not_elem_of_cons in Hnot as [Ha Hs].
    exists (String a ""), s. split; [done|]. split.
    + apply fullmatch_not_char. exists a. split; [done | congruence].
    + by apply fullmatch_star_not_char.
Qed.

(** X12.  The addresses that pass the first check of [join]: [EMAIL_RE]
    matches a string in full exactly when the string is [a@b.c] with [a],
    [b] and [c] non-empty and free of "@" (a dot may occur anywhere in
    them).  So an accepted address has exactly one "@", not in first
    position, and a dot somewhere after it that is neither next to the "@"
    nor in last position. *)
Theorem email_re_shape s :
  fullmatch EMAIL_RE s = true <->
  exists a b c,
    s = a +:+ "@" +:+ b +:+ "." +:+ c /\
    a <> "" /\ b <> "" /\ c <> "" /\
    ("@"%char ∉ list_ascii_of_string a) /\
    ("@"%char ∉ list_ascii_of_string b) /\
    ("@"%char ∉ list_ascii_of_string c).
Proof.
  unfold EMAIL_RE. split.
  - intros (a & s2 & -> & [Ha Ha']%fullmatch_plus_not_char & H2)%fullmatch_seq.
    apply fullmatch_seq in H2 as (at_ & s3 & -> & ->%fullmatch_char & H3).
    apply fullmatch_seq in H3 as (b & s4 & -> & [Hb Hb']%fullmatch_plus_not_char & H4).
    apply fullmatch_seq in H4 as (dot & c & -> & ->%fullmatch_char & [Hc Hc']%fullmatch_plus_not_char).
    by exists a, b, c.
  - intros (a & b & c & -> & Ha & Hb & Hc & Ha' & Hb' & Hc').
    apply fullmatch_seq. exists a, ("@" +:+ b +:+ "." +:+ c).
    split; [done|]. split; [by apply fullmatch_plus_not_char|].
    apply fullmatch_seq. exists "@", (b +:+ "." +:+ c).
    split; [done|]. split; [by apply fullmatch_char|].
    apply fullmatch_seq. exists b, ("." +:+ c).
    split; [done|]. split; [by apply fullmatch_plus_not_char|].
    apply fullmatch_seq. exists ".", c.
    split; [done|]. split; [by apply fullmatch_char | by apply fullmatch_plus_not_char].
Qed.

End EmailShape.

(** ** Order and commits of the directory sync *)

Section SyncOrder.
Context `{env : Environment}.

Lemma add_missing_fold_news old l us1 :
  fold_result add_missing old l = Ok us1 ->
  exists news,
    us1 = old ++ news /\
    NoDup (u_token <$> news) /\
    forall n, n ∈ news ->
      (forall u, u ∈ old -> u_token u <> u_token n) /\
      exists a name, a ∈ l /\ str_field a "Id" = Ok (u_token n) /\
                     n = placeholder (u_token n) name.
Proof.
  revert old. induction l as [|a l IH]; intros old.
  - intros [= <-]. exists []. rewrite app_nil_r. split; [done|]. split; [constructor|].
    intros n Hn. by apply elem_of_nil in Hn.
  - cbn [fold_result]. unfold mbind at 1, result_bind at 1.
    destruct (add_missing old a) as [us|] eqn:Hstep; [|done].
    intros Hfold. destruct (IH _ Hfold) as (news & -> & Hnodup & Hnews).
    unfold add_missing, mbind, result_bind in Hstep.
    destruct (str_field a "Id") as [token|] eqn:Hid; [|done].
    destruct (List.find _ old) as [u0|] eqn:Hfind.
    + injection Hstep as <-. exists news. split; [done|]. split; [done|].
      intros n Hn. destruct (Hnews n Hn) as (Hold & a' & name & Ha' & ?).
      split; [done|]. exists a', name. split; [by apply list_elem_of_further | done].
    + destruct (str_field a "Name") as [name|] eqn:Hname; [|done].
      injection Hstep as <-. exists (placeholder token name :: news).
      split; [by rewrite <- app_assoc|]. split.
      * csimpl. apply NoDup_cons. split; [|done].
        intros (n & Htok & Hn)%list_elem_of_fmap.
        destruct (Hnews n Hn) as (Hold & _).
        apply (Hold (placeholder token name)); [|done].
        apply elem_of_app. right. apply list_elem_of_here.
      * intros n [->|Hn]%elem_of_cons.
        -- split.
           ++ intros u Hu Heq. apply list_elem_of_In in Hu.
              eapply find_none in Hfind; [|exact Hu].
              apply bool_decide_eq_false in Hfind. done.
           ++ exists a, name. split; [apply list_elem_of_here | done].
        -- destruct (Hnews n Hn) as (Hold & a' & name' & Ha' & ?). split.
           ++ intros u Hu. apply Hold. apply elem_of_app. by left.
           ++ exists a', name'. split; [by apply list_elem_of_further | done].
Qed.

(** X13.  The list a completed [list_users] returns: first the local
    records that are kept, in the order they had, then the placeholders of
    the accounts that had no record.  The placeholders carry pairwise
    distinct tokens, none of which a local record had; so when the tokens
    of the local records were distinct before the sync, the tokens of the
    list returned are distinct. *)
Theorem list_users_order w users w' :
  list_users w = (Ok users, w') ->
  exists kept news,
    users = kept ++ news /\
    kept `sublist_of` db_users (w_db w) /\
    Forall (fun n => exists name, n = placeholder (u_token n) name) news /\
    NoDup (u_token <$> news) /\
    (forall n u, n ∈ news -> u ∈ db_users (w_db w) -> u_token u <> u_token n) /\
    (NoDup (u_token <$> db_users (w_db w)) -> NoDup (u_token <$> users)).
Proof.
  intros Hrun.
  apply list_users_run in Hrun
    as (r & w1 & v & accounts & emby_users & us1 & _ & _ & _ & Hdict & Hfold & Husers & _).
  apply accounts_by_id_spec in Hdict as (_ & Hvalues & _).
  apply add_missing_fold_news in Hfold as (news & -> & Hnodup & Hnews).
  assert (filter (fun u => dict_mem (u_token u) emby_users = true) news = news) as Hall.
  { apply filter_all_kept. intros n Hn.
    destruct (Hnews n Hn) as (_ & a & name & Ha & Hid & _).
    destruct (Hvalues a Ha) as (_ & k & Hk & Hmem). congruence. }
  rewrite filter_app, Hall in Husers.
  exists (filter (fun u => dict_mem (u_token u) emby_users = true) (db_users (w_db w))), news.
  split; [done|]. split; [apply sublist_filter|]. split.
  { apply Forall_forall. intros n Hn. destruct (Hnews n Hn) as (_ & a & name & _ & _ & Heq).
    by exists name. }
  split; [done|]. split.
  { intros n u Hn Hu. destruct (Hnews n Hn) as (Hold & _). by apply Hold. }
  intros Hold. rewrite Husers, fmap_app. apply NoDup_app. split.
  { apply (sublist_NoDup _ (u_token <$> db_users (w_db w)));
      first [exact Hold | apply fmap_sublist, sublist_filter]. }
  split; [|done].
  intros token (u & -> & [_ Hu]%list_elem_of_filter)%list_elem_of_fmap
    (n & Htok & Hn)%list_elem_of_fmap.
  destruct (Hnews n Hn) as (Hne & _). by apply (Hne u).
Qed.




End SyncOrder.

Lemma list_users_order_witness :
  let users := [sync_user_A; placeholder "B" "bruno"] in
  list_users (env := scripted) sync_world =
    (Ok users, (list_users (env := scripted) sync_world).2) /\
  exists kept news,
    users = kept ++ news /\
    kept `sublist_of` db_users (w_db sync_world) /\
    Forall (fun n => exists name, n = placeholder (u_token n) name) news /\
    NoDup (u_token <$> news) /\
    (forall n u, n ∈ news -> u ∈ db_users (w_db sync_world) -> u_token u <> u_token n) /\
    (NoDup (u_token <$> db_users (w_db sync_world)) -> NoDup (u_token <$> users)).
Proof.
  intros users. split; [reflexivity|].
  apply (list_users_order (env := scripted) sync_world users
           (list_users (env := scripted) sync_world).2).
  reflexivity.
Defined.

(** ** Consuming an invitation *)

Section Invitations.
Context `{env : Environment}.


End Invitations.


(** ** Order and repetition of the library references *)

Section FolderOrder.
Context `{env : Environment}.

Lemma bind_run {A B} (m : M A) (f : A -> M B) w :
  (m ≫= f) w =
  match m w with
  | (Ok a, w1) => f a w1
  | (Raise e, w1) => (Raise e, w1)
  end.
Proof. reflexivity. Qed.





End FolderOrder.


(** ** The helper [folder_name_to_id] and the matching of [set_specific_folders] *)

Section FolderHelper.
Context `{env : Environment}.
Implicit Types (pairs : list (string * string)) (name : string).

Lemma dict_set_fresh {V} k (v : V) (d : list (string * V)) :
  k ∉ dict_keys d -> dict_set k v d = d ++ [(k, v)].
Proof.
  unfold dict_keys. induction d as [|[k' v'] d IH]; csimpl; [done|].
  intros [Hne Hnin]%not_elem_of_cons. rewrite decide_False by done. by rewrite IH.
Qed.

Lemma dict_of_pairs_distinct {V} (l : list (string * V)) :
  NoDup l.*1 -> dict_of_pairs l = l.
Proof.
  unfold dict_of_pairs.
  cut (forall d, NoDup (dict_keys d ++ l.*1) ->
                 foldl (fun d kv => dict_set kv.1 kv.2 d) d l = d ++ l).
  { intros Hgen Hl. by apply (Hgen []). }
  induction l as [|[k v] l IH]; intros d Hd; [by rewrite app_nil_r|].
  cbn [foldl fst snd]. csimpl in Hd.
  rewrite dict_set_fresh.
  - rewrite IH; [by rewrite <- app_assoc|].
    unfold dict_keys. rewrite fmap_app. csimpl. by rewrite <- app_assoc.
  - apply NoDup_app in Hd as (_ & Hd & _). intros Hin. apply (Hd k Hin), list_elem_of_here.
Qed.

Lemma find_app_first {A} (p : A -> bool) (l1 l2 : list A) :
  List.find p (l1 ++ l2) =
  match List.find p l1 with Some y => Some y | None => List.find p l2 end.
Proof. induction l1 as [|x l1 IH]; simpl; [done|]. by destruct (p x). Qed.

Lemma find_reverse_unique pairs name :
  NoDup pairs.*2 ->
  List.find (fun kv : string * string => bool_decide (kv.2 = name)) (reverse pairs) =
  List.find (fun kv : string * string => bool_decide (kv.2 = name)) pairs.
Proof.
  induction pairs as [|[i n] pairs IH]; [done|]. csimpl.
  intros [Hn Hnodup]%NoDup_cons. rewrite reverse_cons, find_app_first, IH by done.
  simpl. case_bool_decide as Hc; [|by destruct (List.find _ pairs)].
  destruct (List.find _ pairs) as [[i' n']|] eqn:Hfind; [|done].
  apply find_some in Hfind as [Hin Heq]. apply bool_decide_eq_true in Heq. simpl in Heq.
  exfalso. apply Hn. apply list_elem_of_fmap. exists (i', n').
  split; [simpl; congruence | by apply list_elem_of_In].
Qed.

(** The dictionary of names built by the comprehension of line 184 answers
    with the identifier of the last folder that carries the name. *)
Lemma dict_get_swap_last pairs name :
  dict_get name (dict_of_pairs (prod_swap <$> pairs)) =
  fst <$> List.find (fun kv : string * string => bool_decide (kv.2 = name)) (reverse pairs).
Proof.
  induction pairs as [|[i n] pairs IH] using rev_ind; [done|].
  rewrite fmap_app, reverse_app. unfold dict_of_pairs. rewrite foldl_app. simpl.
  fold (dict_of_pairs (prod_swap <$> pairs)). case_bool_decide as Hc.
  - subst n. by rewrite dict_get_set_eq.
  - rewrite dict_get_set_ne by done. exact IH.
Qed.

Lemma omap_ext_all {A B} (f g : A -> option B) (l : list A) :
  (forall x, f x = g x) -> omap f l = omap g l.
Proof.
  intros Hfg. induction l as [|x l IH]; [done|]. csimpl. by rewrite Hfg, IH.
Qed.

(** X17.  On a catalog without repeated identifiers, for a reference that
    is not an identifier: the helper [folder_name_to_id] answers with the
    first folder that carries the reference as its name, while the loop of
    [set_specific_folders] takes the last one.  The two agree on every
    list of references when no two folders share a name, and the loop then
    collects exactly what the helper answers for each reference. *)
Theorem folder_name_to_id_first_last pairs name :
  NoDup pairs.*1 ->
  let cache := dict_of_pairs pairs in
  let name_to_id := dict_of_pairs (prod_swap <$> pairs) in
  let carries := fun kv : string * string => bool_decide (kv.2 = name) in
  (name ∉ pairs.*1 ->
     folder_name_to_id name cache = fst <$> List.find carries pairs /\
     forall w, (collect_folders cache name_to_id [name] [] w).1 =
               Ok (option_list (fst <$> List.find carries (reverse pairs)))) /\
  (NoDup pairs.*2 ->
     forall names w, (collect_folders cache name_to_id names [] w).1 =
                     Ok (omap (fun n => folder_name_to_id n cache) names)).
Proof.
  intros Hids cache name_to_id carries.
  assert (cache = pairs) as Hcache by (by apply dict_of_pairs_distinct).
  split.
  - intros Hnid. split.
    + unfold folder_name_to_id. rewrite Hcache.
      destruct (dict_mem name pairs) eqn:Hmem; [|done].
      by apply dict_mem_keys in Hmem.
    + intros w. rewrite collect_folders_warnings. cbn [fst app omap list_omap].
      unfold match_folder. destruct (dict_mem name cache) eqn:Hmem.
      { apply dict_of_pairs_mem in Hmem. contradiction. }
      unfold name_to_id. rewrite dict_get_swap_last. fold carries.
      by destruct (List.find carries (reverse pairs)).
  - intros Hnames names w. rewrite collect_folders_warnings. cbn [fst app]. f_equal.
    apply omap_ext_all. intros n. unfold match_folder, folder_name_to_id.
    destruct (dict_mem n cache); [done|].
    unfold name_to_id. rewrite dict_get_swap_last, find_reverse_unique by done.
    by rewrite Hcache.
Qed.

End FolderHelper.

Lemma folder_name_to_id_first_last_witness :
  let pairs := [("1", "Movies"); ("2", "Shows"); ("3", "Shows")] in
  let cache := dict_of_pairs pairs in
  let name_to_id := dict_of_pairs (prod_swap <$> pairs) in
  folder_name_to_id "Shows" cache = Some "2" /\
  (collect_folders (env := scripted) cache name_to_id ["Shows"] []
     (demo_world (mkScript [] [] []) (demo_db (PInt 7)))).1 = Ok ["3"].
Proof.
  intros pairs cache name_to_id.
  assert (NoDup pairs.*1) as Hids by (apply (bool_decide_unpack _); by vm_compute).
  assert ("Shows" ∉ pairs.*1) as Hnid by (apply (bool_decide_unpack _); by vm_compute).
  destruct (folder_name_to_id_first_last (env := scripted) pairs "Shows" Hids)
    as [Hfirst_last _].
  destruct (Hfirst_last Hnid) as [Hfirst Hlast].
  split; [exact Hfirst | apply Hlast].
Defined.

(** ** The folders a successful [join] grants *)

Section JoinGrants.
Context `{env : Environment}.

Lemma set_specific_folders_ok uid names w w' :
  set_specific_folders uid names w = (Ok tt, w') ->
  exists st d out1 items pairs policy,
    serve (mkRequest GET "/Library/MediaFolders" None) (w_out w)
      = (Response st (Some (PDict d)), out1) /\
    py_iter (default (PList []) (dict_get "Items" d)) = Ok items /\
    folder_pairs items = Ok pairs /\
    w_http w' = w_http w ++
      [mkRequest GET "/Library/MediaFolders" None;
       mkRequest GET ("/Users/" +:+ uid) None;
       mkRequest POST ("/Users/" +:+ uid +:+ "/Policy")
         (Some (PDict (dict_update
                         (dict_update policy (policy_patch (elements (resolve names pairs))))
                         playback_permissions)))].
Proof.
  intros Hrun. unfold set_specific_folders, client_get in Hrun.
  apply bind_inv in Hrun as [(? & _ & [=]) | ([st b] & w1 & Hget & Hrun)].
  pose proof (send_world _ _ _ _ Hget) as Hw1.
  apply send_inv in Hget as (Hserve & _). cbn [status_code body] in Hserve.
  apply bind_inv in Hrun as [(? & _ & [=]) | (v & ? & [= Hv <-] & Hrun)].
  apply bind_inv in Hrun as [(? & _ & [=]) | (media & ? & [= Hmedia <-] & Hrun)].
  apply bind_inv in Hrun as [(? & _ & [=]) | (items & ? & [= Hitems <-] & Hrun)].
  apply bind_inv in Hrun as [(? & _ & [=]) | (pairs & ? & [= Hpairs <-] & Hrun)].
  unfold response_json in Hv. cbn [body] in Hv. destruct b as [v'|]; [|done].
  injection Hv as ->. destruct v as [| | | | |d]; try done. injection Hmedia as <-.
  rewrite bind_run, collect_folders_warnings in Hrun. cbn beta iota in Hrun.
  apply bind_inv in Hrun as [(? & _ & [=]) | ([] & w3 & Hnote & Hrun)].
  apply bind_inv in Hrun as [(? & _ & [=]) | (acct & w4 & Hacc & Hrun)].
  apply bind_inv in Hrun as [(? & _ & [=]) | (cur & ? & [= _ <-] & Hrun)].
  apply bind_inv in Hrun as [(? & _ & [=]) | (policy & ? & [= _ <-] & Hrun)].
  assert (w_http w3 = w_http w1) as Hh3.
  { destruct (py_truthy _); by injection Hnote as <-. }
  destruct (get_user_run uid w3) as (out4 & Hw4). rewrite Hacc in Hw4. simpl in Hw4.
  unfold set_policy, client_post in Hrun.
  match type of Hrun with (send ?rq ≫= _) ?w0 = _ =>
    destruct (send_run rq w0) as (out5 & _ & Hw5) end.
  apply bind_inv in Hrun as [(? & _ & [=]) | (resp5 & w5 & Hpost & [= <-])].
  rewrite Hpost in Hw5. simpl in Hw5.
  exists st, d, (w_out w1), items, pairs, policy.
  split; [done|]. split; [done|]. split; [done|].
  rewrite Hw5. cbn [w_http]. rewrite Hw4. cbn [w_http]. rewrite Hh3, Hw1. cbn [w_http].
  by rewrite <- !app_assoc.
Qed.

Lemma join_provision_folders u e code uid w res w' :
  join_provision u e code uid w = (Ok res, w') ->
  exists i inv w2,
    list_find (fun inv => inv_code inv = code) (db_invitations (w_db w)) = Some (i, inv) /\
    set_specific_folders uid
      match inv_libraries inv with
      | _ :: _ => lib_external_id <$> inv_libraries inv
      | [] => lib_external_id <$>
                filter (fun l => lib_enabled l = true) (db_libraries (w_db w))
      end w = (Ok tt, w2) /\
    w_http w' = w_http w2.
Proof.
  unfold join_provision. intros Hrun.
  apply bind_inv in Hrun as [(e0 & [=] & _) | (found & w1 & [= <- <-] & Hrun)].
  destruct (list_find _ _) as [[i inv]|].
  2:{ by apply bind_inv in Hrun as [(e0 & _ & [=]) | (? & ? & [=] & _)]. }
  apply bind_inv in Hrun as [(e0 & [=] & _) | ([i' inv'] & w1 & [= <- <- <-] & Hrun)].
  apply bind_inv in Hrun as [(e0 & _ & [=]) | (sections & w1 & Hs & Hrun)].
  apply bind_inv in Hrun as [(e0 & _ & [=]) | ([] & w2 & Hfolders & Hrun)].
  exists i, inv, w2. split; [done|]. split.
  - destruct (inv_libraries inv); by injection Hs as <- <-.
  - apply only_issues_nothing.
    match type of Hrun with ?m w2 = _ =>
      assert (preserves (only_issues (fun _ : request => False)) m) as Hframe
    end.
    { unfold mark_invite_used, session_add, session_store_invitation.
      frame_with (only_issues_refl (fun _ : request => False))
                 (only_issues_trans (fun _ : request => False)). }
    specialize (Hframe w2). by rewrite Hrun in Hframe.
Qed.

Lemma match_folder_source pairs ref x :
  match_folder (dict_of_pairs pairs) (dict_of_pairs (prod_swap <$> pairs)) ref = Some x ->
  x = ref \/ (x, ref) ∈ pairs.
Proof.
  unfold match_folder. destruct (dict_mem ref (dict_of_pairs pairs)).
  - intros [= <-]. by left.
  - intros Hget. pose proof (dict_of_pairs_get (prod_swap <$> pairs) ref) as Hin.
    rewrite Hget in Hin. apply list_elem_of_fmap in Hin as ([a b] & [= <- <-] & Hin).
    by right.
Qed.

(** X18.  The folders a successful [join] grants.  The references are the
    external identifiers of the libraries of the invitation or, when the
    invitation has none, of the enabled local libraries; they are matched
    against the catalog the media server returned after the account was
    created.  The last request of the call writes a policy whose
    EnabledFolders lists exactly the matched identifiers, each of them an
    identifier of the catalog that one of the references names by
    identifier or by name, and whose EnableAllFolders is true exactly when
    nothing matched. *)
Theorem join_grants_invitation_libraries u p c e code w w' :
  join u p c e code w = (Ok (true, ""), w') ->
  exists i inv uid st d out1 items pairs sent,
    list_find (fun inv => inv_code inv = code) (db_invitations (w_db w)) = Some (i, inv) /\
    (create_user u p w).1 = Ok uid /\
    serve (mkRequest GET "/Library/MediaFolders" None) (w_out (create_user u p w).2)
      = (Response st (Some (PDict d)), out1) /\
    py_iter (default (PList []) (dict_get "Items" d)) = Ok items /\
    folder_pairs items = Ok pairs /\
    let sections :=
      match inv_libraries inv with
      | _ :: _ => lib_external_id <$> inv_libraries inv
      | [] => lib_external_id <$>
                filter (fun l => lib_enabled l = true) (db_libraries (w_db w))
      end in
    let granted := resolve sections pairs in
    last (w_http w') =
      Some (mkRequest POST ("/Users/" +:+ uid +:+ "/Policy") (Some (PDict sent))) /\
    dict_get "EnabledFolders" sent = Some (PList (PStr <$> elements granted)) /\
    dict_get "EnableAllFolders" sent = Some (PBool (bool_decide (granted = ∅))) /\
    (forall x, x ∈ granted ->
       x ∈ pairs.*1 /\ exists ref, ref ∈ sections /\ (x = ref \/ (x, ref) ∈ pairs)).
Proof.
  intros Hjoin. rewrite join_after_checks in Hjoin.
  destruct (join_checks _ _ _ _ _ _); [discriminate|].
  unfold try_except in Hjoin.
  destruct ((create_user u p ≫= join_provision u e code) w) as [[res|cause] w1] eqn:Hrun;
    [|rewrite join_handler_run in Hjoin; discriminate].
  injection Hjoin as -> ->.
  apply bind_inv in Hrun as [(? & _ & [=]) | (uid & w1 & Hcreate & Hprov)].
  pose proof (create_user_keeps_records u p w) as [Hdb _].
  rewrite Hcreate in Hdb. simpl in Hdb.
  apply join_provision_folders in Hprov as (i & inv & w2 & Hfind & Hfolders & Hhttp).
  apply set_specific_folders_ok in Hfolders
    as (st & d & out1 & items & pairs & policy & Hserve & Hitems & Hpairs & Hhttp2).
  rewrite Hdb in Hfind, Hhttp2.
  eexists i, inv, uid, st, d, out1, items, pairs, _.
  rewrite Hcreate. cbn [fst snd].
  split; [done|]. split; [done|]. split; [done|]. split; [done|]. split; [done|].
  cbv zeta. split.
  { rewrite Hhttp, Hhttp2.
    apply last_Some. eexists (w_http w1 ++ [_; _]). rewrite <- app_assoc. reflexivity. }
  unfold dict_update, policy_patch, playback_permissions. cbn [foldl fst snd].
  split; [|split].
  - rewrite !dict_get_set_ne by done. by rewrite dict_get_set_eq.
  - rewrite !dict_get_set_ne by done. rewrite dict_get_set_eq.
    by rewrite elements_not_truthy.
  - intros x (Hne & ref & Href & Hm)%elem_of_resolve. split.
    + by apply match_folder_sound in Hm.
    + exists ref. split; [done|]. by apply match_folder_source.
Qed.

End JoinGrants.

Lemma join_grants_invitation_libraries_witness :
  let w := demo_world (mkScript demo_answers [] []) (demo_db (PInt 7)) in
  exists sent,
    last (w_http (join (env := scripted) "bob" "password1" "password1" "bob@example.org"
                    "INVITE" w).2) =
      Some (mkRequest POST "/Users/u1/Policy" (Some (PDict sent))) /\
    dict_get "EnabledFolders" sent = Some (PList [PStr "1"]) /\
    dict_get "EnableAllFolders" sent = Some (PBool false).
Proof.
  intros w.
  destruct (join_grants_invitation_libraries (env := scripted) "bob" "password1" "password1"
              "bob@example.org" "INVITE" w
              (join (env := scripted) "bob" "password1" "password1" "bob@example.org"
                 "INVITE" w).2 eq_refl)
    as (i & inv & uid & st & d & out1 & items & pairs & sent & Hfind & Hcreate & Hserve
        & Hitems & Hpairs & Hlast & Hfolders & Hall & _).
  injection Hfind as <- <-. injection Hcreate as <-. injection Hserve as <- <- <-.
  injection Hitems as <-. injection Hpairs as <-.
  exists sent. split; [exact Hlast|]. split; [exact Hfolders | exact Hall].
Defined.
